(** * MUJ Event Portal: the data-access layer and its query dispatch shim

    A shallow embedding of [config/db.js] (the Firestore-backed data access
    functions and the [dbInterface.query] dispatcher), of [getUserRole] from
    [config/auth.js] and of the [POST /register] handler from
    [routes/registerRoutes.js], followed by the properties proved about them.

    Conventions of the embedding
    - JavaScript strings are byte strings ([string]); [trim], [toLowerCase],
      [toUpperCase] and the [\s] class act on the ASCII range.
    - JavaScript numbers are the integers ([Z]); [NaN] is [None].
    - An [async] function is a computation in the monad [M]: it threads the
      world (the three collections, the console and the replies of the
      document store) and either returns or throws.
    - The document store (Firestore) is outside the repository; the section
      [Store] models the few calls the code makes on it. *)

From Stdlib Require Import ZArith Ascii String DecimalString List Permutation Sorted.
From stdpp Require Import base strings gmap list.

Local Open Scope Z_scope.

(** ** JavaScript strings *)

Module Js.

(** ECMAScript white space, ASCII part: TAB, LF, VT, FF, CR, SPACE. *)
Definition isWhiteSpace (c : ascii) : bool :=
  match c with
  | "009" | "010" | "011" | "012" | "013" | " " => true
  | _ => false
  end%char.

Definition isUpper (c : ascii) : bool :=
  let n := nat_of_ascii c in (Nat.leb 65 n && Nat.leb n 90)%bool.

Definition isLower (c : ascii) : bool :=
  let n := nat_of_ascii c in (Nat.leb 97 n && Nat.leb n 122)%bool.

Definition lowerChar (c : ascii) : ascii :=
  if isUpper c then ascii_of_nat (nat_of_ascii c + 32) else c.

Definition upperChar (c : ascii) : ascii :=
  if isLower c then ascii_of_nat (nat_of_ascii c - 32) else c.

Fixpoint mapString (f : ascii -> ascii) (s : string) : string :=
  match s with
  | EmptyString => EmptyString
  | String c t => String (f c) (mapString f t)
  end.

(** [s.toLowerCase()] and [s.toUpperCase()] *)
Definition toLowerCase (s : string) : string := mapString lowerChar s.
Definition toUpperCase (s : string) : string := mapString upperChar s.

Fixpoint trimStart (s : string) : string :=
  match s with
  | String c t => if isWhiteSpace c then trimStart t else s
  | EmptyString => EmptyString
  end.

Fixpoint trimEnd (s : string) : string :=
  match s with
  | EmptyString => EmptyString
  | String c t =>
      let t' := trimEnd t in
      if (isWhiteSpace c && String.eqb t' EmptyString)%bool
      then EmptyString else String c t'
  end.

(** [s.trim()] *)
Definition trim (s : string) : string := trimEnd (trimStart s).

(** [s.replace(/\s+/g, ' ')]: every maximal run of white space becomes one
    space.  [inRun] tells that the previous character was white space. *)
Fixpoint squeeze (inRun : bool) (s : string) : string :=
  match s with
  | EmptyString => EmptyString
  | String c t =>
      if isWhiteSpace c
      then (if inRun then squeeze true t else String " " (squeeze true t))
      else String c (squeeze false t)
  end.

Definition collapseWhiteSpace (s : string) : string := squeeze false s.

(** [s.startsWith(p)] *)
Definition startsWith (s p : string) : bool := String.prefix p s.

(** [s.includes(p)] *)
Fixpoint includes (s p : string) : bool :=
  if String.prefix p s then true
  else match s with
       | EmptyString => false
       | String _ t => includes t p
       end.

(** *** [parseInt] with no radix argument

    Leading white space is skipped, a sign is read, a [0x]/[0X] prefix selects
    radix 16, and the longest prefix of digits is read; no digit gives [NaN].
    The result is the exact integer (the code's ids stay far below 2^53, where
    the double and the integer agree). *)

Definition digitValue (c : ascii) : option Z :=
  let n := Z.of_nat (nat_of_ascii c) in
  if (48 <=? n) && (n <=? 57) then Some (n - 48)
  else if (97 <=? n) && (n <=? 122) then Some (n - 87)
  else if (65 <=? n) && (n <=? 90) then Some (n - 55)
  else None.

(** Reads digits of radix [r] after the accumulator [acc]; [seen] tells
    whether a digit has been read already. *)
Fixpoint readDigits (r : Z) (seen : bool) (acc : Z) (s : string) : option Z :=
  match s with
  | EmptyString => if seen then Some acc else None
  | String c t =>
      match digitValue c with
      | Some d =>
          if d <? r then readDigits r true (acc * r + d) t
          else if seen then Some acc else None
      | None => if seen then Some acc else None
      end
  end.

Definition stripRadixPrefix (s : string) : Z * string :=
  match s with
  | String "0" (String "x" t) => (16, t)
  | String "0" (String "X" t) => (16, t)
  | _ => (10, s)
  end.

Definition parseInt (s : string) : option Z :=
  let s1 := trimStart s in
  let '(sign, s2) :=
    match s1 with
    | String "-" t => (-1, t)
    | String "+" t => (1, t)
    | _ => (1, s1)
    end in
  let '(r, s3) := stripRadixPrefix s2 in
  match readDigits r false 0 s3 with
  | Some n => Some (sign * n)
  | None => None
  end.

(** [x - y] on numbers: [NaN] when an operand is [NaN]. *)
Definition sub (x y : option Z) : option Z :=
  match x, y with
  | Some a, Some b => Some (a - b)
  | _, _ => None
  end.

(** *** Values *)

Inductive value :=
  | VUndefined
  | VNull
  | VNum (n : Z)
  | VStr (s : string).

Global Instance value_eq_dec : EqDecision value.
Proof. solve_decision. Defined.

(** [String(v)], also the conversion of [v] to a property key *)
Definition toString (v : value) : string :=
  match v with
  | VUndefined => "undefined"
  | VNull => "null"
  | VNum n => NilZero.string_of_int (Z.to_int n)
  | VStr s => s
  end.

(** [ToBoolean] *)
Definition truthy (v : value) : bool :=
  match v with
  | VUndefined | VNull => false
  | VNum n => negb (n =? 0)
  | VStr s => negb (String.eqb s "")
  end.

(** [a || b] *)
Definition or (a b : value) : value := if truthy a then a else b.

(** [params[i]]: out of range reads give [undefined]. *)
Definition nth (params : list value) (i : nat) : value :=
  default VUndefined (params !! i).

(** Thrown objects: the [code] and [message] properties of an error. *)
Record exn := Exn { code : value; message : string }.

Definition TypeError (msg : string) : exn := Exn VUndefined msg.
Definition Error (msg : string) : exn := Exn VUndefined msg.

End Js.

Import Js.

(** ** Documents, the world and the monad of [async] functions *)

(** The three document shapes of the header of [config/db.js].  A field that
    a stored document lacks reads as [undefined]. *)
Module Event.
Record data := Data { title : value; date : value; venue : value; createdAt : Z }.
End Event.

Module Registration.
Record data := Data { name : value; email : value; event_id : value; createdAt : Z }.
End Registration.

Module User.
Record data := Data {
  uid : value; email : value; name : value; role : value; createdAt : Z }.
End User.

(** Data that the store accepts: it refuses [undefined] as a field value. *)
Class Document (D : Type) := storable : D -> bool.

Definition defined (v : value) : bool := if decide (v = VUndefined) then false else true.

Global Instance event_document : Document Event.data :=
  fun d => defined (Event.title d) && defined (Event.date d) && defined (Event.venue d).
Global Instance registration_document : Document Registration.data :=
  fun d => defined (Registration.name d) && defined (Registration.email d)
           && defined (Registration.event_id d).
Global Instance user_document : Document User.data :=
  fun d => defined (User.uid d) && defined (User.email d)
           && defined (User.name d) && defined (User.role d).

(** A document snapshot ([doc.id], [doc.exists], [doc.data()]) and the plain
    object [{ id: doc.id, ...doc.data() }] made from it. *)
Record snapshot (D : Type) := Snapshot { snap_id : string; snap_data : option D }.
Record object (D : Type) := Object { id : string; fields : D }.
Arguments Snapshot {D}.
Arguments snap_id {D}.
Arguments snap_data {D}.
Arguments Object {D}.
Arguments id {D}.
Arguments fields {D}.

Inductive level := Log | Warn | Err.

Global Instance level_eq_dec : EqDecision level.
Proof. solve_decision. Defined.

(** One console call: its level ([console.log], [console.warn],
    [console.error]) and its leading text. *)
Record entry := Entry { lvl : level; text : string }.

(** What the store answers to one request: a failure, or success together
    with the id it would generate and its server time. *)
Record reply := Reply { fault : option exn; autoId : string; serverTime : Z }.

Record world := World {
  events : list (string * Event.data);
  registrations : list (string * Registration.data);
  users : list (string * User.data);
  replies : nat -> reply;
  calls : nat;
  console : list entry }.

Inductive result (A : Type) :=
  | Ok (a : A)
  | Throw (e : exn).
Arguments Ok {A}.
Arguments Throw {A}.

Definition M (A : Type) : Type := world -> result A * world.

Definition ret {A} (a : A) : M A := fun w => (Ok a, w).
Definition throw {A} (e : exn) : M A := fun w => (Throw e, w).
Definition bind {A B} (m : M A) (k : A -> M B) : M B :=
  fun w => match m w with
           | (Ok a, w') => k a w'
           | (Throw e, w') => (Throw e, w')
           end.
Definition try_catch {A} (m : M A) (handler : exn -> M A) : M A :=
  fun w => match m w with
           | (Ok a, w') => (Ok a, w')
           | (Throw e, w') => handler e w'
           end.

Notation "x <- m ;; k" := (bind m (fun x => k))
  (at level 100, m at next level, right associativity).
Notation "m ;;; k" := (bind m (fun _ => k))
  (at level 100, right associativity).

(** The world after one more console line, and after one more request. *)
Definition say (l : level) (msg : string) (w : world) : world :=
  World (events w) (registrations w) (users w) (replies w) (calls w)
        (console w ++ [Entry l msg]).

Definition tick (w : world) : world :=
  World (events w) (registrations w) (users w) (replies w) (S (calls w)) (console w).

Definition console_call (l : level) (msg : string) : M unit :=
  fun w => (Ok tt, say l msg w).
Definition console_log := console_call Log.
Definition console_warn := console_call Warn.
Definition console_error := console_call Err.

(** ** Stable sorting *)

(** Lists in the order [sort(compare)] leaves them: stable, [x] stays before
    the first [y] that is not to go before it.  [before x y] tells that [y]
    must come before [x].  When the comparison is a consistent order, every
    stable sort gives this list; when it is not (ids that are numbers among
    ids that are not), the language leaves the order to the engine, and
    this is one of the orders it may give. *)
Fixpoint insertStable {A} (before : A -> A -> bool) (x : A) (l : list A) : list A :=
  match l with
  | [] => [x]
  | y :: l' => if before x y then y :: insertStable before x l' else x :: l
  end.

Definition sortStable {A} (before : A -> A -> bool) (l : list A) : list A :=
  foldr (insertStable before) [] l.

(** ** The document store *)

(** Modelled from the spec: the document store itself (the Firestore client
    of firebase-admin, which [config/db.js] calls through [db.collection]) is
    no code of this repository.  Its calls follow the adapter contract of
    section 6 of the specification: create with a generated id, get by id,
    list ordered by a field, query by field equality, delete; a collection
    is the list of its documents by ascending id, with the shapes that the
    header of [config/db.js] documents.  Every call is one request, which
    the store answers or fails ([replies]). *)
Section Store.

(** A collection reference: where its documents live in the world. *)
Record collection (D : Type) := Collection {
  docs : world -> list (string * D);
  put : list (string * D) -> world -> world }.
Arguments docs {D}.
Arguments put {D}.

Definition EVENTS_COLLECTION : collection Event.data :=
  Collection _ events
    (fun l w => World l (registrations w) (users w) (replies w) (calls w) (console w)).
Definition REGISTRATIONS_COLLECTION : collection Registration.data :=
  Collection _ registrations
    (fun l w => World (events w) l (users w) (replies w) (calls w) (console w)).
Definition USERS_COLLECTION : collection User.data :=
  Collection _ users
    (fun l w => World (events w) (registrations w) l (replies w) (calls w) (console w)).

Context {D : Type} `{Document D}.

Fixpoint lookupDoc (i : string) (l : list (string * D)) : option D :=
  match l with
  | [] => None
  | (j, d) :: l' => if String.eqb i j then Some d else lookupDoc i l'
  end.

Definition deleteDoc (i : string) (l : list (string * D)) : list (string * D) :=
  List.filter (fun p => negb (String.eqb i (fst p))) l.

(** A scan returns documents by ascending id: a new document goes before the
    first one with a greater id. *)
Definition insertDoc (i : string) (d : D) (l : list (string * D)) : list (string * D) :=
  insertStable (fun p q => String.leb (fst q) (fst p)) (i, d) l.


(** One round trip to the store: the next reply is consumed; a failing reply
    is thrown. *)
Definition request : M reply :=
  fun w =>
    let r := replies w (calls w) in
    match fault r with
    | Some e => (Throw e, tick w)
    | None => (Ok r, tick w)
    end.

(** [C.doc(i)]: a document id is one non-empty path segment. *)
Definition validId (i : string) : bool :=
  negb (String.eqb i "") && negb (includes i "/").

Definition docRef (i : string) : M string :=
  if validId i then ret i
  else throw (Error "Value for argument documentPath is not a valid resource path.").

(** [C.doc(i).get()] *)
Definition doc_get (C : collection D) (i : string) : M (snapshot D) :=
  i <- docRef i ;;
  _ <- request ;;
  fun w => (Ok (Snapshot i (lookupDoc i (docs C w))), w).

(** [C.add(data)]: the data is checked, the store picks the id; an id that
    is taken already fails with ALREADY_EXISTS (6).  [data] receives the
    server time for its [serverTimestamp()] field.  The result is the
    reference (the id) of the new document. *)
Definition coll_add (C : collection D) (data : Z -> D) : M string :=
  if storable (data 0) then
    r <- request ;;
    fun w =>
      match validId (autoId r), lookupDoc (autoId r) (docs C w) with
      | true, None =>
          (Ok (autoId r), put C (insertDoc (autoId r) (data (serverTime r)) (docs C w)) w)
      | _, _ => (Throw (Exn (VNum 6) "ALREADY_EXISTS"), w)
      end
  else throw (Error "Cannot use undefined as a Firestore value").


(** [C.doc(i).delete()]: succeeds whether or not the document exists. *)
Definition doc_delete (C : collection D) (i : string) : M unit :=
  i <- docRef i ;;
  _ <- request ;;
  fun w => (Ok tt, put C (deleteDoc i (docs C w)) w).

(** [C.where(...).where(...).limit(n).get()] and [C.get()]: the matching
    documents in scan order, at most [limit] of them. *)
Definition query_get (C : collection D) (where_ : D -> bool) (limit : option nat)
  : M (list (snapshot D)) :=
  _ <- request ;;
  fun w =>
    let found := List.filter (fun p => where_ (snd p)) (docs C w) in
    let found := match limit with Some n => take n found | None => found end in
    (Ok (List.map (fun p => Snapshot (fst p) (Some (snd p))) found), w).

(** Firestore's order on the values of one field: null, then numbers, then
    strings by their bytes. *)
Definition valueLeb (a b : value) : bool :=
  match a, b with
  | VUndefined, _ => true
  | _, VUndefined => false
  | VNull, _ => true
  | _, VNull => false
  | VNum m, VNum n => m <=? n
  | VNum _, VStr _ => true
  | VStr _, VNum _ => false
  | VStr s, VStr t => String.leb s t
  end.

(** [C.orderBy(field, 'asc').get()]: documents without the field are left
    out; equal values stay in scan order. *)
Definition orderBy_get (C : collection D) (field : D -> value) : M (list (snapshot D)) :=
  _ <- request ;;
  fun w =>
    let present := List.filter (fun p => defined (field (snd p))) (docs C w) in
    let sorted :=
      sortStable (fun p q => negb (valueLeb (field (snd p)) (field (snd q)))) present in
    (Ok (List.map (fun p => Snapshot (fst p) (Some (snd p))) sorted), w).

End Store.

(** ** [config/db.js] *)

(** *** Helper functions *)

(** [null] is [None]. *)
Definition docToObject {D} (doc : snapshot D) : option (object D) :=
  match snap_data doc with
  | None => None
  | Some d => Some (Object (snap_id doc) d)
  end.

(** The documents of a query snapshot all exist, so no [null] is pushed. *)
Definition snapshotToArray {D} (snapshot : list (snapshot D)) : list (object D) :=
  omap docToObject snapshot.

(** [error.code === 5 || error.code === 'NOT_FOUND'] *)
Definition isNotFound (error : exn) : bool :=
  bool_decide (code error = VNum 5) || bool_decide (code error = VStr "NOT_FOUND").

Definition notEnabled : exn :=
  Error "Firestore database not enabled. Please enable it in Firebase Console.".

(** [s] between double quotes *)
Definition quoted (s : string) : string :=
  String (ascii_of_nat 34) s +:+ String (ascii_of_nat 34) EmptyString.

(** The four console lines and the error thrown when the database is not
    enabled (shared by [createEvent] and [createUser]). *)
Definition reportNotEnabled {A} : M A :=
  console_error "❌ Firestore database not found. Please enable Firestore in Firebase Console:" ;;;
  console_error "   1. Go to Firebase Console > Firestore Database" ;;;
  console_error ("   2. Click " +:+ quoted "Create database") ;;;
  console_error ("   3. Choose " +:+ quoted "Start in test mode" +:+ " (for development)") ;;;
  throw notEnabled.

(** Method calls on a value that may not be a string *)
Definition call_toLowerCase (v : value) : M string :=
  match v with
  | VStr s => ret (toLowerCase s)
  | _ => throw (TypeError "toLowerCase is not a function")
  end.

Definition call_trim (v : value) : M string :=
  match v with
  | VStr s => ret (trim s)
  | _ => throw (TypeError "trim is not a function")
  end.

(** [C.doc(uid)] with an argument that is used as it comes *)
Definition docPath (v : value) : M string :=
  match v with
  | VStr s => ret s
  | _ => throw (Error "Value for argument documentPath is not a valid resource path.")
  end.

(** *** Events operations *)

Definition getAllEvents : M (list (object Event.data)) :=
  try_catch
    (snapshot <- orderBy_get EVENTS_COLLECTION Event.date ;;
     let events := snapshotToArray snapshot in
     console_log ("📋 Fetched " +:+ toString (VNum (Z.of_nat (length events)))
                  +:+ " events from Firestore") ;;;
     ret events)
    (fun error =>
       if isNotFound error then
         console_error
           "❌ Firestore database not found. Please enable Firestore in Firebase Console." ;;;
         ret []
       else
         console_error "❌ Error fetching events:" ;;;
         ret []).

Definition getEventById (id : value) : M (option (object Event.data)) :=
  try_catch
    (doc <- doc_get EVENTS_COLLECTION (toString id) ;;
     ret (docToObject doc))
    (fun error =>
       if isNotFound error then ret None
       else
         console_error "❌ Error fetching event by ID:" ;;;
         ret None).

(** [createEvent({ title, date, venue })] *)
Definition createEvent (title date venue : value) : M (option (object Event.data)) :=
  try_catch
    (console_log "📝 Creating new event in Firestore:" ;;;
     docRef <- coll_add EVENTS_COLLECTION (Event.Data title date venue) ;;
     doc <- doc_get EVENTS_COLLECTION docRef ;;
     let newEvent := docToObject doc in
     console_log "✅ Event created successfully:" ;;;
     ret newEvent)
    (fun error =>
       if isNotFound error then reportNotEnabled
       else
         console_error "❌ Error creating event:" ;;;
         throw error).

Definition deleteEvent (id : value) : M bool :=
  try_catch
    (doc_delete EVENTS_COLLECTION (toString id) ;;;
     console_log ("✅ Event " +:+ toString id +:+ " deleted successfully") ;;;
     ret true)
    (fun error =>
       console_error "❌ Error deleting event:" ;;;
       throw error).

(** *** Registrations operations *)

Definition getAllRegistrations : M (list (object Registration.data)) :=
  try_catch
    (snapshot <- query_get REGISTRATIONS_COLLECTION (fun _ => true) None ;;
     ret (snapshotToArray snapshot))
    (fun error =>
       console_error "❌ Error fetching registrations:" ;;;
       ret []).

Definition getRegistrationById (id : value) : M (option (object Registration.data)) :=
  try_catch
    (doc <- doc_get REGISTRATIONS_COLLECTION (toString id) ;;
     ret (docToObject doc))
    (fun error =>
       console_error "❌ Error fetching registration by ID:" ;;;
       ret None).

Definition getRegistrationsByEventId (eventId : value) : M (list (object Registration.data)) :=
  try_catch
    (snapshot <- query_get REGISTRATIONS_COLLECTION
                   (fun d => bool_decide (Registration.event_id d = VStr (toString eventId)))
                   None ;;
     ret (snapshotToArray snapshot))
    (fun error =>
       console_error "❌ Error fetching registrations by event ID:" ;;;
       ret []).

Definition isEmailRegisteredForEvent (email eventId : value) : M bool :=
  try_catch
    (lowered <- call_toLowerCase email ;;
     snapshot <- query_get REGISTRATIONS_COLLECTION
                   (fun d => bool_decide (Registration.email d = VStr lowered)
                             && bool_decide (Registration.event_id d = VStr (toString eventId)))
                   (Some 1%nat) ;;
     ret (negb (bool_decide (snapshot = []))))
    (fun error =>
       console_error "❌ Error checking registration:" ;;;
       ret false).

(** [createRegistration({ name, email, event_id })] *)
Definition createRegistration (name email event_id : value)
  : M (option (object Registration.data)) :=
  try_catch
    (name' <- call_trim name ;;
     trimmed <- call_trim email ;;
     docRef <- coll_add REGISTRATIONS_COLLECTION
                 (Registration.Data (VStr name') (VStr (toLowerCase trimmed))
                                    (VStr (toString event_id))) ;;
     doc <- doc_get REGISTRATIONS_COLLECTION docRef ;;
     ret (docToObject doc))
    (fun error =>
       console_error "❌ Error creating registration:" ;;;
       throw error).

(** *** The join *)

(** A row of the join *)
Module Joined.
Record row := Row {
  id : string; name : value; email : value;
  event_title : value; event_date : value; event_venue : value }.
End Joined.

(** [const eventsMap = {}]: an ordinary object.  Reading a key that is no own
    property goes on to the prototype, in the end [Object.prototype]; and
    assigning to the key [__proto__] sets the prototype and creates no own
    property. *)
Record eventsObject := EventsObject {
  own : gmap string (object Event.data);
  proto : option (object Event.data) }.

Definition emptyObject : eventsObject := EventsObject ∅ None.

(** What reading a key can give *)
Inductive property :=
  | PUndefined
  | PEvent (e : object Event.data)
  | PValue (v : value)   (* a field of the event that was made the prototype *)
  | PObject.             (* another object: a method of [Object.prototype],
                            [Object.prototype] itself, a timestamp *)

Definition objectPrototypeKeys : list string :=
  [ "constructor"; "hasOwnProperty"; "isPrototypeOf"; "propertyIsEnumerable";
    "toLocaleString"; "toString"; "valueOf";
    "__defineGetter__"; "__defineSetter__"; "__lookupGetter__"; "__lookupSetter__" ].

Definition objectPrototypeGet (key : string) : property :=
  if bool_decide (key ∈ objectPrototypeKeys) then PObject else PUndefined.

(** The own properties of an event object [{ id, title, date, venue, createdAt }] *)
Definition eventGet (e : object Event.data) (key : string) : property :=
  if String.eqb key "id" then PValue (VStr (id e))
  else if String.eqb key "title" then PValue (Event.title (fields e))
  else if String.eqb key "date" then PValue (Event.date (fields e))
  else if String.eqb key "venue" then PValue (Event.venue (fields e))
  else if String.eqb key "createdAt" then PObject
  else objectPrototypeGet key.

(** [eventsMap[key] = event] *)
Definition objectSet (key : string) (event : object Event.data) (o : eventsObject)
  : eventsObject :=
  if String.eqb key "__proto__" then EventsObject (own o) (Some event)
  else EventsObject (<[key := event]> (own o)) (proto o).

(** [eventsMap[key]] *)
Definition objectGet (o : eventsObject) (key : string) : property :=
  match own o !! key with
  | Some e => PEvent e
  | None =>
      match proto o with
      | Some e => if String.eqb key "__proto__" then PEvent e else eventGet e key
      | None => if String.eqb key "__proto__" then PObject else objectPrototypeGet key
      end
  end.

(** [!event] *)
Definition falsy (p : property) : bool :=
  match p with
  | PUndefined => true
  | PValue v => negb (truthy v)
  | PEvent _ | PObject => false
  end.

(** [event.title], [event.date], [event.venue] *)
Definition propertyField (field : Event.data -> value) (p : property) : value :=
  match p with
  | PEvent e => field (fields e)
  | _ => VUndefined
  end.

(** [(a, b) => parseInt(b.id) - parseInt(a.id)] *)
Definition compareIdDesc (a b : Joined.row) : option Z :=
  sub (parseInt (Joined.id b)) (parseInt (Joined.id a)).

(** [sort] puts [b] before [a] when the comparator is positive; [NaN] counts
    as zero. *)
Definition comesAfter (compare : Joined.row -> Joined.row -> option Z) (a b : Joined.row)
  : bool :=
  match compare a b with
  | Some v => 0 <? v
  | None => false
  end.

Definition buildEventsMap (events : list (object Event.data)) : eventsObject :=
  foldl (fun eventsMap event => objectSet (id event) event eventsMap) emptyObject events.

Definition joinRow (eventsMap : eventsObject) (reg : object Registration.data)
  : option Joined.row :=
  let event := objectGet eventsMap (toString (Registration.event_id (fields reg))) in
  if falsy event then None
  else Some (Joined.Row (id reg)
                        (Registration.name (fields reg))
                        (Registration.email (fields reg))
                        (propertyField Event.title event)
                        (propertyField Event.date event)
                        (propertyField Event.venue event)).

(** [.map(...).filter(reg => reg !== null).sort(...)] *)
Definition joinRows (registrations : list (object Registration.data))
                    (events : list (object Event.data)) : list Joined.row :=
  let eventsMap := buildEventsMap events in
  sortStable (comesAfter compareIdDesc) (omap (joinRow eventsMap) registrations).

Definition getRegistrationsWithEvents : M (list Joined.row) :=
  try_catch
    (registrations <- getAllRegistrations ;;
     events <- getAllEvents ;;
     ret (joinRows registrations events))
    (fun error =>
       console_error "❌ Error fetching registrations with events:" ;;;
       ret []).

(** *** User operations *)

Definition getUserByUid (uid : value) : M (option (object User.data)) :=
  try_catch
    (path <- docPath uid ;;
     doc <- doc_get USERS_COLLECTION path ;;
     ret (docToObject doc))
    (fun error =>
       if isNotFound error then ret None
       else
         console_error "❌ Error fetching user by UID:" ;;;
         ret None).


(** *** The query interface *)

(** What [query] returns is an array whose elements are records or arrays of
    rows. *)
Inductive row :=
  | InsertId (insertId : string)   (* [{ insertId: ... }] *)
  | EventRow (event : object Event.data)
  | IdRow (id : Z)                 (* [{ id: 1 }] *)
  | JoinedRow (r : Joined.row).

Inductive element :=
  | Rec (r : row)
  | Rows (l : list row).

(** [sql.trim().toUpperCase().replace(/\s+/g, ' ')] *)
Definition normalize (sql : string) : string :=
  collapseWhiteSpace (toUpperCase (trim sql)).

(** [x.id] on an object that may be [null] *)
Definition getId {D} (x : option (object D)) : M string :=
  match x with
  | Some o => ret (id o)
  | None => throw (TypeError "Cannot read properties of null (reading id)")
  end.

(** [[event].filter(e => e !== null)] *)
Definition nonNull {D} (x : option (object D)) : list (object D) :=
  match x with
  | Some o => [o]
  | None => []
  end.

Definition query (sql : string) (params : list value) : M (list element) :=
  let sqlUpper := normalize sql in
  console_log "🔍 DB Query called:" ;;;
  console_log "🔍 SQL Upper (normalized):" ;;;
  console_log "🔍 Params:" ;;;
  try_catch
    (if startsWith sqlUpper "INSERT INTO EVENTS" || includes sqlUpper "INSERT INTO EVENTS"
     then
       console_log "✅ INSERT INTO events matched!" ;;;
       event <- createEvent (Js.nth params 0) (Js.nth params 1) (Js.nth params 2) ;;
       console_log "✅ Created event successfully:" ;;;
       insertId <- getId event ;;
       ret [Rec (InsertId insertId)]
     else if includes sqlUpper "SELECT" && includes sqlUpper "FROM EVENTS"
             && includes sqlUpper "WHERE ID = ?"
     then
       event <- getEventById (Js.nth params 0) ;;
       ret [Rows (EventRow <$> nonNull event)]
     else if includes sqlUpper "SELECT ID FROM EVENTS WHERE ID = ?"
     then
       event <- getEventById (Js.nth params 0) ;;
       ret [Rows (EventRow <$> nonNull event)]
     else if includes sqlUpper "SELECT" && includes sqlUpper "FROM EVENTS"
             && negb (includes sqlUpper "WHERE")
     then
       console_log "✅ SELECT * FROM events matched!" ;;;
       events <- getAllEvents ;;
       console_log "Fetched events:" ;;;
       ret [Rows (EventRow <$> events)]
     else if includes sqlUpper "SELECT ID FROM REGISTRATIONS WHERE EMAIL = ? AND EVENT_ID = ?"
     then
       exists_ <- isEmailRegisteredForEvent (Js.nth params 0) (Js.nth params 1) ;;
       ret (if exists_ : bool then [Rows [IdRow 1]] else [Rows []])
     else if includes sqlUpper "INSERT INTO REGISTRATIONS"
     then
       registration <- createRegistration (Js.nth params 0) (Js.nth params 1)
                                          (Js.nth params 2) ;;
       insertId <- getId registration ;;
       ret [Rec (InsertId insertId)]
     else if includes sqlUpper "FROM REGISTRATIONS R" && includes sqlUpper "INNER JOIN EVENTS E"
     then
       registrations <- getRegistrationsWithEvents ;;
       ret [Rows (JoinedRow <$> registrations)]
     else
       console_warn "⚠️  Unmatched SQL query:" ;;;
       console_warn "⚠️  SQL Upper (normalized):" ;;;
       console_warn "⚠️  Checking patterns:" ;;;
       console_warn "   - INSERT INTO EVENTS:" ;;;
       console_warn "   - SELECT * FROM EVENTS:" ;;;
       console_warn "   - Has WHERE:" ;;;
       ret [Rows []])
    (fun error =>
       console_error "❌ Database query error:" ;;;
       console_error "❌ Error stack:" ;;;
       throw error).

(** ** [config/auth.js] *)

Definition getUserRole (uid : value) : M value :=
  try_catch
    (user <- getUserByUid uid ;;
     ret (match user with
          | Some u => User.role (fields u)
          | None => VStr "student"
          end))
    (fun error => ret (VStr "student")).

(** ** [routes/registerRoutes.js] *)

(** Regular expressions, matched by derivatives; [matches] is the test of a
    pattern anchored at both ends. *)
Module Regex.

Inductive re :=
  | Empty
  | Eps
  | Class (p : ascii -> bool)
  | Seq (a b : re)
  | Alt (a b : re)
  | Plus (a : re).

Fixpoint nullable (r : re) : bool :=
  match r with
  | Empty | Class _ => false
  | Eps => true
  | Seq a b => nullable a && nullable b
  | Alt a b => nullable a || nullable b
  | Plus a => nullable a
  end.

Fixpoint deriv (c : ascii) (r : re) : re :=
  match r with
  | Empty | Eps => Empty
  | Class p => if p c then Eps else Empty
  | Seq a b =>
      if nullable a then Alt (Seq (deriv c a) b) (deriv c b) else Seq (deriv c a) b
  | Alt a b => Alt (deriv c a) (deriv c b)
  | Plus a => Seq (deriv c a) (Alt Eps (Plus a))
  end.

Fixpoint matches (r : re) (s : string) : bool :=
  match s with
  | EmptyString => nullable r
  | String c t => matches (deriv c r) t
  end.

End Regex.

(** [/^[^\s@]+@[^\s@]+\.[^\s@]+$/] *)
Definition emailRegex : Regex.re :=
  let atom := Regex.Plus (Regex.Class (fun c => negb (isWhiteSpace c || Ascii.eqb c "@"))) in
  Regex.Seq atom
    (Regex.Seq (Regex.Class (Ascii.eqb "@"))
       (Regex.Seq atom (Regex.Seq (Regex.Class (Ascii.eqb ".")) atom))).

(** [emailRegex.test(email)] *)
Definition emailRegex_test (email : value) : bool :=
  Regex.matches emailRegex (toString email).

Inductive response := Redirect (url : string).

(** [!rows || rows.length === 0] on the first element of a result *)
Definition noRows (x : option element) : bool :=
  match x with
  | None | Some (Rows []) => true
  | Some (Rows (_ :: _)) | Some (Rec _) => false
  end.

(** [rows && rows.length > 0] *)
Definition someRows (x : option element) : bool :=
  match x with
  | Some (Rows (_ :: _)) => true
  | None | Some (Rows []) | Some (Rec _) => false
  end.

Definition registerPath (event_id : value) (rest : string) : string :=
  "/register/" +:+ toString event_id +:+ rest.

(** The handler of [POST /register], after the [requireStudent] middleware
    has let the request through; the arguments are the fields of
    [req.body]. *)
Definition postRegister (name email event_id : value) : M response :=
  try_catch
    (if negb (truthy name) || negb (truthy email) || negb (truthy event_id) then
       ret (Redirect (registerPath event_id "?message=All fields are required&type=danger"))
     else if negb (emailRegex_test email) then
       ret (Redirect (registerPath event_id "?message=Invalid email format&type=danger"))
     else
       result <- query "SELECT id FROM events WHERE id = ?" [event_id] ;;
       if noRows (head result) then
         ret (Redirect (registerPath event_id "?message=Event not found&type=danger"))
       else
         result <- query "SELECT id FROM registrations WHERE email = ? AND event_id = ?"
                     [email; event_id] ;;
         if someRows (head result) then
           ret (Redirect (registerPath event_id
                  "?message=You are already registered for this event&type=warning"))
         else
           name' <- call_trim name ;;
           email' <- call_trim email ;;
           query "INSERT INTO registrations (name, email, event_id) VALUES (?, ?, ?)"
                 [VStr name'; VStr email'; event_id] ;;;
           ret (Redirect "/?message=Registration successful!&type=success"))
    (fun error =>
       console_error "Error registering participant:" ;;;
       ret (Redirect "/?message=Registration failed. Please try again.&type=danger")).

(** The text of the query of [GET /admin] *)
Definition adminQuery : string :=
"
            SELECT 
                r.id,
                r.name,
                r.email,
                e.title as event_title,
                e.date as event_date,
                e.venue as event_venue
            FROM registrations r
            INNER JOIN events e ON r.event_id = e.id
            ORDER BY r.id DESC
        ".

(** *** The other handlers, and those of [routes/eventRoutes.js] *)

(** The object that a view is rendered with *)
Inductive locals :=
  | EventForm (title : string) (event : row) (message messageType : value)
  | Registrations (title : string) (registrations : element) (message messageType : value)
  | Events (title : string) (events : list row) (message messageType : value)
  | Details (title : value) (event : row) (registrations : list (object Registration.data))
            (message messageType : value)
  | Failure (title message : string).

(** What a handler answers with: [res.redirect(url)], or
    [res.status(n).render(view, locals)], where the status is 200 when the
    handler sets none. *)
Inductive answer :=
  | Sent (r : response)
  | Render (status : Z) (view : string) (l : locals).

(** [rows[0]] on the first element of a result; [undefined] is [None] *)
Definition firstRow (x : option element) : option row :=
  match x with
  | Some (Rows (r :: _)) => Some r
  | _ => None
  end.

(** [event.title] *)
Definition rowTitle (event : row) : value :=
  match event with
  | EventRow e => Event.title (fields e)
  | _ => VUndefined
  end.

(** What reading [event.title] raises when [event] is [undefined] *)
Definition undefinedTitle : exn :=
  TypeError "Cannot read properties of undefined (reading 'title')".

(** [Array.isArray(result) && result.length > 0 ? result[0] : []], read as
    an array: what is no array counts as the empty one. *)
Definition arrayOf (x : option element) : list row :=
  match x with
  | Some (Rows l) => l
  | _ => []
  end.

(** [x.trim()], where [what] is the name of the variable [x] *)
Definition trimOf (what : string) (v : value) : M string :=
  match v with
  | VStr s => ret (trim s)
  | _ => throw (TypeError (what +:+ ".trim is not a function"))
  end.

(** The handler of [GET /register/:eventId], after [requireStudent]; the
    arguments are [req.params.eventId], [req.query.message] and
    [req.query.type]. *)
Definition getRegister (eventId message messageType : value) : M answer :=
  try_catch
    (if negb (truthy eventId) then
       ret (Sent (Redirect "/?message=Invalid event ID&type=danger"))
     else
       result <- query "SELECT * FROM events WHERE id = ?" [eventId] ;;
       if noRows (head result) then
         ret (Sent (Redirect "/?message=Event not found&type=danger"))
       else
         match firstRow (head result) with
         | Some event =>
             ret (Render 200 "register"
                    (EventForm ("Register for " +:+ toString (rowTitle event)) event
                               (Js.or message VNull) (Js.or messageType VNull)))
         | None => throw undefinedTitle
         end)
    (fun error =>
       console_error "Error fetching event:" ;;;
       ret (Render 500 "error"
              (Failure "Error" "Failed to load registration form. Please try again."))).

(** The handler of [GET /admin], after [requireAdmin] *)
Definition getAdmin (message messageType : value) : M answer :=
  try_catch
    (result <- query adminQuery [] ;;
     let registrations := match head result with Some x => x | None => Rows [] end in
     ret (Render 200 "admin"
            (Registrations "Admin Panel - All Registrations" registrations
                           (Js.or message VNull) (Js.or messageType VNull))))
    (fun error =>
       console_error "Error fetching registrations:" ;;;
       ret (Render 500 "error"
              (Failure "Error" "Failed to load registrations. Please try again."))).

(** The handler of [GET /admin/events], after [requireAdmin] *)
Definition getAdminEvents (message messageType : value) : M answer :=
  try_catch
    (result <- query "SELECT * FROM events ORDER BY date ASC" [] ;;
     let events := arrayOf (head result) in
     console_log "Admin events page - Events fetched:" ;;;
     (if 0 <? Z.of_nat (length events) then console_log "Sample event:" else ret tt) ;;;
     ret (Render 200 "admin-events"
            (Events "Admin - Manage Events" events
                    (Js.or message VNull) (Js.or messageType VNull))))
    (fun error =>
       console_error "Error fetching events:" ;;;
       ret (Render 500 "error" (Failure "Error" "Failed to load events. Please try again."))).

(** The handler of [POST /admin/events], after [requireAdmin]; the arguments
    are the fields of [req.body]. *)
Definition postAdminEvents (title date venue : value) : M response :=
  try_catch
    (console_log "ðŸ“¥ Received event creation request:" ;;;
     if negb (truthy title) || negb (truthy date) || negb (truthy venue) then
       console_warn "âš ï¸  Validation failed: Missing required fields" ;;;
       ret (Redirect "/admin/events?message=All fields are required&type=danger")
     else
       console_log "ðŸ”„ Calling db.query to create event..." ;;;
       title' <- trimOf "title" title ;;
       venue' <- trimOf "venue" venue ;;
       query "INSERT INTO events (title, date, venue) VALUES (?, ?, ?)"
             [VStr title'; date; VStr venue'] ;;;
       console_log "âœ… Event creation query completed, result:" ;;;
       ret (Redirect "/admin/events?message=Event created successfully&type=success"))
    (fun error =>
       console_error "âŒ Error creating event in route:" ;;;
       console_error "Error stack:" ;;;
       ret (Redirect ("/admin/events?message=Failed to create event: " +:+ message error
                      +:+ "&type=danger"))).

(** The handler of [POST /admin/events/:id/delete], after [requireAdmin] *)
Definition postAdminEventsDelete (id : value) : M response :=
  try_catch
    (deleteEvent id ;;;
     ret (Redirect "/admin/events?message=Event deleted successfully&type=success"))
    (fun error =>
       console_error "Error deleting event:" ;;;
       ret (Redirect "/admin/events?message=Failed to delete event&type=danger")).

(** ** [routes/eventRoutes.js] *)

(** The handler of [GET /] *)
Definition getHome (message messageType : value) : M answer :=
  try_catch
    (result <- query "SELECT * FROM events ORDER BY date ASC" [] ;;
     let events := arrayOf (head result) in
     console_log "Home page - Events fetched:" ;;;
     (if 0 <? Z.of_nat (length events) then console_log "Sample event:" else ret tt) ;;;
     ret (Render 200 "index"
            (Events "MUJ Events" events (Js.or message VNull) (Js.or messageType VNull))))
    (fun error =>
       console_error "Error fetching events:" ;;;
       ret (Render 500 "error"
              (Failure "Error" "Failed to load events. Please try again later."))).

(** The handler of [GET /event/:eventId] *)
Definition getEvent (eventId message messageType : value) : M answer :=
  try_catch
    (if negb (truthy eventId) then
       ret (Sent (Redirect "/?message=Invalid event ID&type=danger"))
     else
       result <- query "SELECT * FROM events WHERE id = ?" [eventId] ;;
       if noRows (head result) then
         ret (Sent (Redirect "/?message=Event not found&type=danger"))
       else
         let event := firstRow (head result) in
         registrations <- getRegistrationsByEventId eventId ;;
         match event with
         | Some event =>
             ret (Render 200 "event-details"
                    (Details (rowTitle event) event registrations
                             (Js.or message VNull) (Js.or messageType VNull)))
         | None => throw undefinedTitle
         end)
    (fun error =>
       console_error "Error fetching event details:" ;;;
       ret (Render 500 "error"
              (Failure "Error" "Failed to load event details. Please try again."))).

(** ** Worlds for examples *)

(** A store that always answers, generating the ids [g0], [g1], ... *)
Definition healthy (n : nat) : reply :=
  Reply None ("g" +:+ toString (VNum (Z.of_nat n))) (Z.of_nat n).

(** A store that fails every request with [error]. *)
Definition failing (error : exn) (n : nat) : reply := Reply (Some error) "" 0.

Definition emptyWorld (r : nat -> reply) : world := World [] [] [] r 0 [].

Definition run {A} (m : M A) (w : world) : result A := fst (m w).
Definition after {A} (m : M A) (w : world) : world := snd (m w).

(** * Notions of the statements *)

(** ** The store and its answers *)

(** The store answers the request that is [k] requests ahead. *)
Definition answers (w : world) (k : nat) : Prop :=
  fault (replies w (calls w + k)) = None.

(** The store answers the next [n] requests. *)
Definition answersNext (n : nat) (w : world) : Prop :=
  forall k, (k < n)%nat -> answers w k.

(** The next request fails with [e]. *)
Definition failsWith (e : exn) (w : world) : Prop :=
  fault (replies w (calls w)) = Some e.

(** The three collections are the same in both worlds. *)
Definition sameStore (w w' : world) : Prop :=
  events w' = events w /\ registrations w' = registrations w /\ users w' = users w.

(** A store that is unavailable: gRPC status 14. *)
Definition unavailable : exn := Exn (VNum 14) "UNAVAILABLE: failed to connect".


(** ** The dispatcher *)

(** The conditions of [query], in the order it tests them. *)
Definition isInsertEvent (u : string) : bool :=
  startsWith u "INSERT INTO EVENTS" || includes u "INSERT INTO EVENTS".

Definition isSelectEventById (u : string) : bool :=
  includes u "SELECT" && includes u "FROM EVENTS" && includes u "WHERE ID = ?".

Definition isSelectEventId (u : string) : bool :=
  includes u "SELECT ID FROM EVENTS WHERE ID = ?".

Definition isSelectEvents (u : string) : bool :=
  includes u "SELECT" && includes u "FROM EVENTS" && negb (includes u "WHERE").

Definition isExistenceCheck (u : string) : bool :=
  includes u "SELECT ID FROM REGISTRATIONS WHERE EMAIL = ? AND EVENT_ID = ?".

Definition isInsertRegistration (u : string) : bool :=
  includes u "INSERT INTO REGISTRATIONS".

Definition isJoin (u : string) : bool :=
  includes u "FROM REGISTRATIONS R" && includes u "INNER JOIN EVENTS E".

(** The six patterns: the third test of [query] never decides, a text that
    passes it has passed the second. *)
Definition recognized (u : string) : bool :=
  isInsertEvent u || isSelectEventById u || isSelectEvents u || isExistenceCheck u
  || isInsertRegistration u || isJoin u.

(** The world after the three console lines that open every [query] *)
Definition traced (w : world) : world :=
  say Log "🔍 Params:"
    (say Log "🔍 SQL Upper (normalized):" (say Log "🔍 DB Query called:" w)).

Definition queryTrace : list entry :=
  [ Entry Log "🔍 DB Query called:"; Entry Log "🔍 SQL Upper (normalized):";
    Entry Log "🔍 Params:" ].

Definition unmatchedWarnings : list entry :=
  [ Entry Warn "⚠️  Unmatched SQL query:"; Entry Warn "⚠️  SQL Upper (normalized):";
    Entry Warn "⚠️  Checking patterns:"; Entry Warn "   - INSERT INTO EVENTS:";
    Entry Warn "   - SELECT * FROM EVENTS:"; Entry Warn "   - Has WHERE:" ].

(** The texts the routes send *)
Definition insertEventSql : string :=
  "INSERT INTO events (title, date, venue) VALUES (?, ?, ?)".

Definition selectEventIdSql : string := "SELECT id FROM events WHERE id = ?".

Definition existenceCheckSql : string :=
  "SELECT id FROM registrations WHERE email = ? AND event_id = ?".

Definition insertRegistrationSql : string :=
  "INSERT INTO registrations (name, email, event_id) VALUES (?, ?, ?)".

(** An [INSERT ... SELECT] text: it contains INSERT INTO REGISTRATIONS and
    is taken for the listing of the events, which is tested earlier. *)
Definition insertSelectSql : string :=
  "INSERT INTO registrations (name, email, event_id) SELECT title, venue, id FROM events".

(** ** Registrations and the email pattern *)

(** The registration [d] is one for the lower-cased [email] and the event
    [eventId]: the two conditions of the query of
    [isEmailRegisteredForEvent]. *)
Definition registeredFor (email : string) (eventId : value) (d : Registration.data) : bool :=
  bool_decide (Registration.email d = VStr (toLowerCase email))
  && bool_decide (Registration.event_id d = VStr (toString eventId)).

(** The emails of the stored registrations are strings that [trim] leaves
    as they are; [createRegistration] stores no other. *)
Definition emailsTrimmed (l : list (string * Registration.data)) : Prop :=
  forall i d, (i, d) ∈ l -> exists m, Registration.email d = VStr m /\ trim m = m.

Definition alreadyRegistered (event_id : value) : response :=
  Redirect (registerPath event_id
              "?message=You are already registered for this event&type=warning").

(** Some character of [s] is white space. *)
Definition hasWhiteSpace (s : string) : bool :=
  existsb isWhiteSpace (list_ascii_of_string s).

Module RegexShape.
Import Regex.

(** Every class of [r] refuses the character [c]. *)
Fixpoint refuses (c : ascii) (r : re) : bool :=
  match r with
  | Empty | Eps => true
  | Class p => negb (p c)
  | Seq a b | Alt a b => refuses c a && refuses c b
  | Plus a => refuses c a
  end.

(** [r] matches nothing, by its shape. *)
Fixpoint dead (r : re) : bool :=
  match r with
  | Empty => true
  | Eps | Class _ => false
  | Seq a b => dead a || dead b
  | Alt a b => dead a && dead b
  | Plus a => dead a
  end.

(** [c] occurs in [s]. *)
Fixpoint occurs (c : ascii) (s : string) : bool :=
  match s with
  | EmptyString => false
  | String c' t => Ascii.eqb c c' || occurs c t
  end.

End RegexShape.

(** ** The join *)

(** [x] is not to come after [y]. *)
Definition inOrder {A} (before : A -> A -> bool) (x y : A) : Prop := before x y = false.

(** The number that [parseInt] reads in the id of a row *)
Definition idNumber (r : Joined.row) : option Z := parseInt (Joined.id r).

Definition numericId (r : Joined.row) : Prop := is_Some (idNumber r).

(** [a] may stand before [b]: both ids are numbers and that of [a] is not
    the smaller one. *)
Definition descending (a b : Joined.row) : Prop :=
  exists m n, idNumber a = Some m /\ idNumber b = Some n /\ n <= m.

(** A key that [Object.prototype] does not answer *)
Definition plainKey (key : string) : Prop :=
  (key ∉ objectPrototypeKeys) /\ key <> "__proto__".

(** The join in the words of the specification: the event of a registration
    is the one whose id is its [event_id]; a registration without one is
    dropped. *)
Definition specJoinRow (events : list (object Event.data)) (reg : object Registration.data)
  : option Joined.row :=
  match List.find (fun e => String.eqb (id e) (toString (Registration.event_id (fields reg))))
                  events with
  | Some e => Some (Joined.Row (id reg) (Registration.name (fields reg))
                               (Registration.email (fields reg))
                               (Event.title (fields e)) (Event.date (fields e))
                               (Event.venue (fields e)))
  | None => None
  end.

Definition specJoin (registrations : list (object Registration.data))
                    (events : list (object Event.data)) : list Joined.row :=
  omap (specJoinRow events) registrations.

(** The events as [getAllEvents] returns them: those with a date, by
    ascending date. *)
Definition listedEvents (l : list (string * Event.data)) : list (object Event.data) :=
  (fun p => Object (fst p) (snd p)) <$>
    sortStable (fun p q => negb (valueLeb (Event.date (snd p)) (Event.date (snd q))))
               (List.filter (fun p => defined (Event.date (snd p))) l).

Definition registrationObjects (l : list (string * Registration.data))
  : list (object Registration.data) :=
  (fun p => Object (fst p) (snd p)) <$> l.

(** ** Worlds of the examples *)

(** A campus with one event and no registration yet *)
Definition campus : world :=
  World [("e1", Event.Data (VStr "Tech Innovators Summit") (VStr "2025-12-01")
                           (VStr "Auditorium A") 0)]
        [] [] healthy 0 [].

(** The campus after Asha registered for the event *)
Definition campusWithAsha : world :=
  after (createRegistration (VStr " Asha ") (VStr "Asha@MUJ.edu") (VStr "e1")) campus.

(** Two events and four registrations: one of an event that is gone, and
    ids whose order as numbers differs from their order as text. *)
Definition fest : world :=
  World [ ("1", Event.Data (VStr "Tech Innovators Summit") (VStr "2025-12-01")
                           (VStr "Auditorium A") 0);
          ("2", Event.Data (VStr "AI Workshop") (VStr "2025-12-05") (VStr "Lab 3") 0) ]
        [ ("10", Registration.Data (VStr "Dev") (VStr "dev@muj.edu") (VStr "2") 0);
          ("3", Registration.Data (VStr "Asha") (VStr "asha@muj.edu") (VStr "1") 0);
          ("4", Registration.Data (VStr "Gone") (VStr "gone@muj.edu") (VStr "99") 0);
          ("9", Registration.Data (VStr "Ravi") (VStr "ravi@muj.edu") (VStr "1") 0) ]
        [] healthy 0 [].

(** The world after one INSERT sent to the dispatcher for an event id that
    names a member of [Object.prototype]; no event exists. *)
Definition inheritedKeyWorld : world :=
  after (query insertRegistrationSql [VStr "Eve"; VStr "eve@muj.edu"; VStr "constructor"])
        (emptyWorld healthy).

(** A world with one admin; the store answers. *)
Definition staffed : world :=
  World [] [] [("uid-9", User.Data (VStr "uid-9") (VStr "dean@muj.edu") (VStr "Dean")
                                   (VStr "admin") 0)]
        healthy 0 [].





(** ** Invariants of the registrations *)

(** A registration as [createRegistration] writes it: the name trimmed, the
    email trimmed and in lower case, the event id a string. *)
Definition normalized (d : Registration.data) : Prop :=
  exists n m e,
    Registration.name d = VStr n /\ trim n = n
    /\ Registration.email d = VStr m /\ trim m = m /\ toLowerCase m = m
    /\ Registration.event_id d = VStr e.

Definition allNormalized (l : list (string * Registration.data)) : Prop :=
  forall i d, (i, d) ∈ l -> normalized d.

(** The answer of [POST /register] to a request that it has stored *)
Definition registered : response :=
  Redirect "/?message=Registration successful!&type=success".

(** ** The pages *)

(** An answer with the status 500, the one of a handler's [catch] block *)
Definition serverError (a : answer) : bool :=
  match a with
  | Render status _ _ => bool_decide (status = 500)
  | Sent _ => false
  end.

(** The handler answers in the world [w], with no server error, and leaves
    the three collections as they are. *)
Definition serves (handler : M answer) (w : world) : Prop :=
  exists a w', handler w = (Ok a, w') /\ serverError a = false /\ sameStore w w'.

Definition eventNotFound : answer := Sent (Redirect "/?message=Event not found&type=danger").

(** The texts of the queries of the pages *)
Definition selectEventSql : string := "SELECT * FROM events WHERE id = ?".

Definition listEventsSql : string := "SELECT * FROM events ORDER BY date ASC".

(** [a] is not dated after [b], in the order of the store. *)
Definition byDate (a b : object Event.data) : Prop :=
  valueLeb (Event.date (fields a)) (Event.date (fields b)) = true.

(** The stored events that have a date, as objects, in scan order *)
Definition datedEvents (l : list (string * Event.data)) : list (object Event.data) :=
  (fun p => Object (fst p) (snd p)) <$> List.filter (fun p => defined (Event.date (snd p))) l.

(** The answers of the handlers that write events *)
Definition created : response :=
  Redirect "/admin/events?message=Event created successfully&type=success".

Definition fieldsRequired : response :=
  Redirect "/admin/events?message=All fields are required&type=danger".

Definition notCreated (error : exn) : response :=
  Redirect ("/admin/events?message=Failed to create event: " +:+ message error
            +:+ "&type=danger").

Definition deleted : response :=
  Redirect "/admin/events?message=Event deleted successfully&type=success".

Definition notDeleted : response :=
  Redirect "/admin/events?message=Failed to delete event&type=danger".

(** * Properties *)

Ltac unfold_monad :=
  unfold run, after, bind, try_catch, ret, throw, console_log, console_warn,
    console_error, console_call in *.

(** ** The store's calls *)

Section StoreFacts.

Context {D : Type} `{Document D}.

Lemma request_answered w :
  answers w 0 -> request w = (Ok (replies w (calls w)), tick w).
Proof.
  unfold answers, request. rewrite Nat.add_0_r. intros ->. reflexivity.
Qed.

Lemma request_failed w e :
  failsWith e w -> request w = (Throw e, tick w).
Proof. unfold failsWith, request. intros ->. reflexivity. Qed.

Lemma lookupDoc_insertDoc_eq i (d : D) l :
  lookupDoc i (insertDoc i d l) = Some d \/ is_Some (lookupDoc i l).
Proof.
  unfold insertDoc. induction l as [|[j e] l IH]; simpl.
  - rewrite String.eqb_refl. by left.
  - destruct (String.leb j i) eqn:Hle; simpl.
    + destruct (String.eqb i j) eqn:Hij; [right; eauto | exact IH].
    + rewrite String.eqb_refl. by left.
Qed.

Lemma lookupDoc_insertDoc_fresh i (d : D) l :
  lookupDoc i l = None -> lookupDoc i (insertDoc i d l) = Some d.
Proof.
  intros Hnone. destruct (lookupDoc_insertDoc_eq i d l) as [?|[x Hx]]; [done|congruence].
Qed.

Lemma lookupDoc_insertDoc_ne i j (d : D) l :
  i <> j -> lookupDoc j (insertDoc i d l) = lookupDoc j l.
Proof.
  intros Hne. unfold insertDoc. induction l as [|[k e] l IH]; simpl.
  - destruct (String.eqb_spec j i); congruence.
  - destruct (String.leb k i); simpl.
    + by rewrite IH.
    + destruct (String.eqb_spec j i); congruence.
Qed.

Lemma lookupDoc_deleteDoc_eq i (l : list (string * D)) :
  lookupDoc i (deleteDoc i l) = None.
Proof.
  induction l as [|[j e] l IH]; simpl; [done|].
  destruct (String.eqb_spec i j); simpl; [done|].
  destruct (String.eqb_spec i j); congruence.
Qed.

Lemma lookupDoc_deleteDoc_ne i j (l : list (string * D)) :
  i <> j -> lookupDoc j (deleteDoc i l) = lookupDoc j l.
Proof.
  intros Hne. induction l as [|[k e] l IH]; simpl; [done|].
  destruct (String.eqb_spec i k); simpl.
  - subst. destruct (String.eqb_spec j k); congruence.
  - by rewrite IH.
Qed.

Lemma lookupDoc_Some_elem i (d : D) l :
  lookupDoc i l = Some d -> (i, d) ∈ l.
Proof.
  induction l as [|[j e] l IH]; simpl; [done|].
  destruct (String.eqb_spec i j); intros Heq.
  - simplify_eq. left.
  - right. auto.
Qed.

Lemma lookupDoc_None_elem i (l : list (string * D)) :
  lookupDoc i l = None <-> forall d, (i, d) ∉ l.
Proof.
  induction l as [|[j e] l IH]; simpl.
  - split; [intros _ d Hd; inversion Hd | done].
  - destruct (String.eqb_spec i j).
    + subst. split; [done|]. intros Hno. destruct (Hno e). left.
    + rewrite IH. split.
      * intros Hno d Hd. apply (Hno d). inversion Hd; simplify_eq. done.
      * intros Hno d Hd. apply (Hno d). by right.
Qed.

(** The objects made from the snapshots of a query are the documents. *)
Lemma snapshotToArray_docs (l : list (string * D)) :
  snapshotToArray (List.map (fun p => Snapshot (fst p) (Some (snd p))) l)
  = (fun p => Object (fst p) (snd p)) <$> l.
Proof.
  unfold snapshotToArray. induction l as [|p l IH]; simpl; [done|]. f_equal. exact IH.
Qed.

End StoreFacts.

(** ** Lookups *)

Ltac case_request :=
  match goal with
  | |- context [request ?w] =>
      let Hf := fresh "Hfault" in
      unfold request; destruct (fault (replies w (calls w))) eqn:Hf; simpl
  end.

Lemma getUserByUid_found s w :
  validId s = true -> answers w 0 ->
  getUserByUid (VStr s) w = (Ok (Object s <$> lookupDoc s (users w)), tick w).
Proof.
  intros Hv Ha. unfold getUserByUid, doc_get, docPath, docRef.
  unfold_monad. simpl. rewrite Hv. rewrite (request_answered _ Ha). simpl.
  unfold docToObject; simpl. by destruct (lookupDoc s (users w)).
Qed.

Ltac returns := unfold sameStore; repeat eexists.

Lemma getUserByUid_returns uid w :
  exists r w', getUserByUid uid w = (Ok r, w') /\ sameStore w w'.
Proof.
  unfold getUserByUid, doc_get, docPath, docRef, sameStore.
  destruct uid as [| |n|s]; unfold_monad; simpl; try solve [returns].
  destruct (validId s); simpl; try solve [returns].
  case_request; [destruct (isNotFound _)|]; simpl; returns.
Qed.

Lemma getUserByUid_failed uid w e :
  failsWith e w -> exists w', getUserByUid uid w = (Ok None, w').
Proof.
  intros Hf. unfold getUserByUid, doc_get, docPath, docRef.
  destruct uid as [| |n|s]; unfold_monad; simpl; eauto.
  destruct (validId s); simpl; eauto.
  rewrite (request_failed _ _ Hf). destruct (isNotFound e); simpl; eauto.
Qed.

Lemma getUserByUid_absent uid w :
  (forall s, uid = VStr s -> lookupDoc s (users w) = None) ->
  exists w', getUserByUid uid w = (Ok None, w').
Proof.
  intros Habs. unfold getUserByUid, doc_get, docPath, docRef.
  destruct uid as [| |n|s]; unfold_monad; simpl; eauto.
  destruct (validId s); simpl; eauto.
  case_request; [destruct (isNotFound _); simpl; eauto|].
  unfold docToObject; simpl. rewrite (Habs s eq_refl). eauto.
Qed.

(** C10. Role lookup fails closed: [getUserRole] never raises; it returns the
    stored user's role when the user exists and the store answers, and
    the role student whenever the user is absent or the lookup fails. *)
Theorem getUserRole_fails_closed (uid : value) (w : world) :
  (exists role, run (getUserRole uid) w = Ok role)
  /\ (forall s d, uid = VStr s -> validId s = true -> answers w 0 ->
        lookupDoc s (users w) = Some d ->
        run (getUserRole uid) w = Ok (User.role d))
  /\ ((forall s, uid = VStr s -> lookupDoc s (users w) = None) ->
        run (getUserRole uid) w = Ok (VStr "student"))
  /\ (forall e, failsWith e w -> run (getUserRole uid) w = Ok (VStr "student")).
Proof.
  unfold getUserRole. repeat split.
  - destruct (getUserByUid_returns uid w) as (r & w' & Hrun & _).
    unfold_monad. rewrite Hrun. simpl. eauto.
  - intros s d -> Hv Ha Hd. unfold_monad.
    rewrite (getUserByUid_found _ _ Hv Ha), Hd. reflexivity.
  - intros Habs. destruct (getUserByUid_absent uid w Habs) as [w' Hrun].
    unfold_monad. rewrite Hrun. reflexivity.
  - intros e Hf. destruct (getUserByUid_failed uid w e Hf) as [w' Hrun].
    unfold_monad. rewrite Hrun. reflexivity.
Qed.

Lemma getEventById_failed id w e :
  failsWith e w -> exists w', getEventById id w = (Ok None, w') /\ sameStore w w'.
Proof.
  intros Hf. unfold getEventById, doc_get, docRef. unfold_monad. simpl.
  destruct (validId (toString id)); simpl; [|returns].
  rewrite (request_failed _ _ Hf). destruct (isNotFound e); simpl; returns.
Qed.

Lemma getEventById_returns id w :
  exists r w', getEventById id w = (Ok r, w') /\ sameStore w w'.
Proof.
  unfold getEventById, doc_get, docRef. unfold_monad. simpl.
  destruct (validId (toString id)); simpl; [|returns].
  case_request; [destruct (isNotFound _)|]; simpl; returns.
Qed.

Lemma getEventById_found id w :
  validId (toString id) = true -> answers w 0 ->
  getEventById id w
  = (Ok (Object (toString id) <$> lookupDoc (toString id) (events w)), tick w).
Proof.
  intros Hv Ha. unfold getEventById, doc_get, docRef.
  unfold_monad. simpl. rewrite Hv. rewrite (request_answered _ Ha). simpl.
  unfold docToObject; simpl. by destruct (lookupDoc _ (events w)).
Qed.


Lemma getAllEvents_failed w e :
  failsWith e w -> exists w', getAllEvents w = (Ok [], w') /\ sameStore w w'.
Proof.
  intros Hf. unfold getAllEvents, orderBy_get. unfold_monad.
  rewrite (request_failed _ _ Hf). destruct (isNotFound e); simpl; returns.
Qed.

Lemma getAllEvents_returns w :
  exists r w', getAllEvents w = (Ok r, w') /\ sameStore w w'.
Proof.
  unfold getAllEvents, orderBy_get. unfold_monad.
  case_request; [destruct (isNotFound _)|]; simpl; returns.
Qed.

Lemma getAllRegistrations_failed w e :
  failsWith e w -> exists w', getAllRegistrations w = (Ok [], w') /\ sameStore w w'.
Proof.
  intros Hf. unfold getAllRegistrations, query_get. unfold_monad.
  rewrite (request_failed _ _ Hf). simpl; returns.
Qed.

Lemma getAllRegistrations_answered w :
  answers w 0 ->
  getAllRegistrations w
  = (Ok ((fun p => Object (fst p) (snd p)) <$> registrations w), tick w).
Proof.
  intros Ha. unfold getAllRegistrations, query_get. unfold_monad.
  rewrite (request_answered _ Ha). simpl. rewrite <- snapshotToArray_docs.
  do 3 f_equal. induction (registrations w) as [|p l IH]; simpl; [done|].
  by rewrite IH.
Qed.


Lemma getRegistrationsByEventId_answered eventId w :
  answers w 0 ->
  getRegistrationsByEventId eventId w
  = (Ok ((fun p => Object (fst p) (snd p)) <$>
           List.filter (fun p => bool_decide
                          (Registration.event_id (snd p) = VStr (toString eventId)))
                       (registrations w)),
     tick w).
Proof.
  intros Ha. unfold getRegistrationsByEventId, query_get. unfold_monad.
  rewrite (request_answered _ Ha). simpl. by rewrite <- snapshotToArray_docs.
Qed.

Lemma isEmailRegisteredForEvent_failed email eventId w e :
  failsWith e w ->
  exists w', isEmailRegisteredForEvent email eventId w = (Ok false, w') /\ sameStore w w'.
Proof.
  intros Hf. unfold isEmailRegisteredForEvent, query_get, call_toLowerCase.
  destruct email; unfold_monad; simpl; try solve [returns].
  rewrite (request_failed _ _ Hf). simpl; returns.
Qed.

Lemma isEmailRegisteredForEvent_returns email eventId w :
  exists r w', isEmailRegisteredForEvent email eventId w = (Ok r, w') /\ sameStore w w'.
Proof.
  unfold isEmailRegisteredForEvent, query_get, call_toLowerCase.
  destruct email; unfold_monad; simpl; try solve [returns].
  case_request; returns.
Qed.

(** ** Writes under a failing store *)








(** ** Events: create, read, delete *)

Lemma answers_say l msg w k : answers (say l msg w) k <-> answers w k.
Proof. done. Qed.

Lemma answers_tick w k : answers (tick w) k <-> answers w (S k).
Proof. unfold answers. simpl. by rewrite Nat.add_succ_r. Qed.

Lemma answersNext_le n m w : (m <= n)%nat -> answersNext n w -> answersNext m w.
Proof. intros Hle Ha k Hk. apply Ha. lia. Qed.

Lemma createEvent_created title date venue w :
  storable (Event.Data title date venue 0) = true ->
  answersNext 2 w ->
  validId (autoId (replies w (calls w))) = true ->
  lookupDoc (autoId (replies w (calls w))) (events w) = None ->
  let r := replies w (calls w) in
  let data := Event.Data title date venue (serverTime r) in
  exists w1,
    createEvent title date venue w = (Ok (Some (Object (autoId r) data)), w1)
    /\ events w1 = insertDoc (autoId r) data (events w)
    /\ registrations w1 = registrations w /\ users w1 = users w
    /\ replies w1 = replies w /\ calls w1 = S (S (calls w)).
Proof.
  intros Hs Ha Hv Hfresh r data. subst r data.
  pose proof (Ha 0%nat ltac:(lia)) as Ha0. pose proof (Ha 1%nat ltac:(lia)) as Ha1.
  unfold createEvent, coll_add, doc_get, docRef. rewrite Hs. unfold_monad. simpl.
  apply (answers_say Log "📝 Creating new event in Firestore:") in Ha0.
  rewrite (request_answered _ Ha0). simpl. rewrite Hv, Hfresh. simpl.
  rewrite Hv. simpl. unfold request. simpl.
  unfold answers in Ha1. rewrite Nat.add_1_r in Ha1. rewrite Ha1.
  simpl. unfold docToObject. simpl. rewrite lookupDoc_insertDoc_fresh by done.
  eexists. split; [reflexivity|]. simpl. done.
Qed.

(** C5. Round trip: for defined title, date and venue, when the store answers
    and generates a fresh id, [createEvent] returns the created event, and
    [getEventById] on the id it returned yields a record with exactly that
    title, date and venue. *)
Theorem createEvent_getEventById_roundtrip (title date venue : value) (w : world) :
  storable (Event.Data title date venue 0) = true ->
  answersNext 3 w ->
  validId (autoId (replies w (calls w))) = true ->
  lookupDoc (autoId (replies w (calls w))) (events w) = None ->
  exists created found,
    run (createEvent title date venue) w = Ok (Some created)
    /\ run (getEventById (VStr (id created))) (after (createEvent title date venue) w)
       = Ok (Some found)
    /\ id found = id created
    /\ Event.title (fields found) = title
    /\ Event.date (fields found) = date
    /\ Event.venue (fields found) = venue.
Proof.
  intros Hs Ha Hv Hfresh.
  destruct (createEvent_created title date venue w Hs (answersNext_le 3 2 w ltac:(lia) Ha)
              Hv Hfresh) as (w1 & Hrun & Hev & _ & _ & Hrep & Hcalls).
  unfold run, after. rewrite Hrun. cbn [fst snd].
  assert (Ha1 : answers w1 0).
  { unfold answers. rewrite Hrep, Hcalls, Nat.add_0_r.
    specialize (Ha 2%nat ltac:(lia)). unfold answers in Ha.
    by replace (calls w + 2)%nat with (S (S (calls w))) in Ha by lia. }
  eexists (Object _ _), _. split; [reflexivity|]. cbn [id].
  rewrite getEventById_found by done. cbn [toString fst].
  rewrite Hev, lookupDoc_insertDoc_fresh by done. by cbn.
Qed.

Lemma createEvent_getEventById_roundtrip_witness :
  exists created found,
    run (createEvent (VStr "Cultural Fest") (VStr "2025-12-10") (VStr "Main Ground"))
        (emptyWorld healthy) = Ok (Some created)
    /\ run (getEventById (VStr (id created)))
           (after (createEvent (VStr "Cultural Fest") (VStr "2025-12-10")
                               (VStr "Main Ground")) (emptyWorld healthy))
       = Ok (Some found)
    /\ id found = id created
    /\ Event.title (fields found) = VStr "Cultural Fest"
    /\ Event.date (fields found) = VStr "2025-12-10"
    /\ Event.venue (fields found) = VStr "Main Ground".
Proof.
  apply (createEvent_getEventById_roundtrip
           (VStr "Cultural Fest") (VStr "2025-12-10") (VStr "Main Ground")
           (emptyWorld healthy)).
  - reflexivity.
  - intros k _. reflexivity.
  - reflexivity.
  - reflexivity.
Defined.

Lemma deleteEvent_deleted id w :
  validId (toString id) = true -> answers w 0 ->
  exists w',
    deleteEvent id w = (Ok true, w')
    /\ events w' = deleteDoc (toString id) (events w)
    /\ registrations w' = registrations w /\ users w' = users w.
Proof.
  intros Hv Ha. unfold deleteEvent, doc_delete, docRef. unfold_monad. simpl.
  rewrite Hv. rewrite (request_answered _ Ha). simpl. eexists; split; [reflexivity|done].
Qed.

Lemma deleteEvent_frame id w :
  exists r w',
    deleteEvent id w = (r, w')
    /\ (events w' = events w \/ events w' = deleteDoc (toString id) (events w))
    /\ registrations w' = registrations w /\ users w' = users w.
Proof.
  unfold deleteEvent, doc_delete, docRef. unfold_monad. simpl.
  destruct (validId (toString id)); simpl.
  - case_request; do 2 eexists; (split; [reflexivity|]); simpl; auto.
  - do 2 eexists; (split; [reflexivity|]); simpl; auto.
Qed.

(** C7. Deleting an event removes that event document only: registrations
    and users are left as they were, every other event stays, and each
    registration that referenced the deleted event is still returned by
    [getRegistrationsByEventId] on its event id. *)
Theorem deleteEvent_no_cascade (eventId : value) (w : world) :
  let w' := after (deleteEvent eventId) w in
  registrations w' = registrations w
  /\ users w' = users w
  /\ (forall j, j <> toString eventId -> lookupDoc j (events w') = lookupDoc j (events w))
  /\ (validId (toString eventId) = true -> answers w 0 ->
        run (deleteEvent eventId) w = Ok true
        /\ lookupDoc (toString eventId) (events w') = None)
  /\ (forall rid d,
        (rid, d) ∈ registrations w ->
        Registration.event_id d = VStr (toString eventId) ->
        answers w' 0 ->
        exists found,
          run (getRegistrationsByEventId eventId) w' = Ok found
          /\ Object rid d ∈ found).
Proof.
  intros w'. subst w'. unfold after, run.
  destruct (deleteEvent_frame eventId w) as (r & w' & Hrun & Hev & Hreg & Husers).
  rewrite Hrun. simpl. split; [done|]. split; [done|]. split; [|split].
  - intros j Hj. destruct Hev as [-> | ->]; [done|]. by apply lookupDoc_deleteDoc_ne.
  - intros Hv Ha. destruct (deleteEvent_deleted eventId w Hv Ha) as (w2 & Hrun2 & Hev2 & _).
    rewrite Hrun in Hrun2. simplify_eq. split; [done|].
    rewrite Hev2. apply lookupDoc_deleteDoc_eq.
  - intros rid d Hin Hd Ha. rewrite getRegistrationsByEventId_answered by done.
    simpl. eexists; split; [reflexivity|].
    apply (list_elem_of_fmap_2 (fun p => Object (fst p) (snd p)) _ (rid, d)).
    rewrite Hreg. apply list_elem_of_In, filter_In. split; [by apply list_elem_of_In|].
    simpl. by apply bool_decide_eq_true.
Qed.

(** ** Users *)

Section Counting.

Context {D : Type}.




End Counting.





(** ** Strings *)

Lemma append_cons c (a b : string) : String c a +:+ b = String c (a +:+ b).
Proof. reflexivity. Qed.

Lemma prefix_app p s : String.prefix p s = true <-> exists b, s = p +:+ b.
Proof.
  revert s. induction p as [|c p IH]; intros s.
  - split; [intros _; by exists s | intros _; by destruct s].
  - destruct s as [|c' s]; simpl.
    + split; [done | intros [b Hb]; discriminate].
    + destruct (ascii_dec c c') as [->|Hne].
      * rewrite IH. split; intros [b Hb]; exists b.
        -- by rewrite append_cons, Hb.
        -- rewrite append_cons in Hb. by injection Hb.
      * split; [done | intros [b Hb]; rewrite append_cons in Hb; injection Hb; done].
Qed.

Lemma append_assoc (a b c : string) : (a +:+ b) +:+ c = a +:+ b +:+ c.
Proof. induction a as [|x a IH]; [done | by rewrite !append_cons, IH]. Qed.

Lemma includes_app s p : includes s p = true <-> exists a b, s = a +:+ p +:+ b.
Proof.
  induction s as [|c s IH].
  - cbn [includes]. destruct (String.prefix p "") eqn:Hp.
    + split; [intros _ | done]. apply prefix_app in Hp as [b Hb]. by exists "", b.
    + split; [done|]. intros (a & b & Hab). destruct a.
      * assert (String.prefix p "" = true) by (apply prefix_app; eauto). congruence.
      * discriminate.
  - cbn [includes]. destruct (String.prefix p (String c s)) eqn:Hp.
    + split; [intros _ | done]. apply prefix_app in Hp as [b Hb]. by exists "", b.
    + rewrite IH. split.
      * intros (a & b & ->). by exists (String c a), b.
      * intros (a & b & Hab). destruct a as [|x a].
        -- assert (String.prefix p (String c s) = true) by (apply prefix_app; eauto).
           congruence.
        -- rewrite append_cons in Hab. injection Hab as -> ->. eauto.
Qed.

Lemma includes_trans s p q : includes s p = true -> includes p q = true -> includes s q = true.
Proof.
  rewrite !includes_app. intros (a & b & ->) (x & y & ->).
  exists (a +:+ x), (y +:+ b). by rewrite !append_assoc.
Qed.

Lemma startsWith_includes s p : startsWith s p = true -> includes s p = true.
Proof. unfold startsWith. intros Hp. destruct s; cbn [includes]; by rewrite Hp. Qed.

Lemma isWhiteSpace_lowerChar c : isWhiteSpace (lowerChar c) = isWhiteSpace c.
Proof.
  unfold lowerChar. destruct (isUpper c) eqn:Hu; [|done].
  destruct c as [[] [] [] [] [] [] [] []]; try discriminate Hu; reflexivity.
Qed.

Lemma length_toLowerCase s : String.length (toLowerCase s) = String.length s.
Proof. unfold toLowerCase. induction s as [|c s IH]; simpl; [done | by rewrite IH]. Qed.

Lemma lowerChar_idem c : lowerChar (lowerChar c) = lowerChar c.
Proof. destruct c as [[] [] [] [] [] [] [] []]; reflexivity. Qed.

Lemma toLowerCase_idem s : toLowerCase (toLowerCase s) = toLowerCase s.
Proof.
  unfold toLowerCase. induction s as [|c s IH]; simpl; [done|].
  by rewrite lowerChar_idem, IH.
Qed.

Lemma trimStart_toLowerCase s : trimStart (toLowerCase s) = toLowerCase (trimStart s).
Proof.
  unfold toLowerCase. induction s as [|c s IH]; simpl; [done|].
  rewrite isWhiteSpace_lowerChar. by destruct (isWhiteSpace c).
Qed.

Lemma trimEnd_toLowerCase s : trimEnd (toLowerCase s) = toLowerCase (trimEnd s).
Proof.
  unfold toLowerCase. induction s as [|c s IH]; simpl; [done|].
  rewrite isWhiteSpace_lowerChar, IH.
  destruct (isWhiteSpace c); simpl; [|done].
  destruct (trimEnd s); reflexivity.
Qed.

Lemma trim_toLowerCase s : trim (toLowerCase s) = toLowerCase (trim s).
Proof. unfold trim. by rewrite trimStart_toLowerCase, trimEnd_toLowerCase. Qed.

Lemma trimStart_length s :
  trimStart s = s \/ (String.length (trimStart s) < String.length s)%nat.
Proof.
  induction s as [|c s IH]; simpl; [by left|].
  destruct (isWhiteSpace c); [right | by left]. destruct IH as [-> | ?]; lia.
Qed.

Lemma trimEnd_length s :
  trimEnd s = s \/ (String.length (trimEnd s) < String.length s)%nat.
Proof.
  induction s as [|c s IH]; simpl; [by left|].
  destruct (isWhiteSpace c && String.eqb (trimEnd s) "")%bool; simpl; [right; lia|].
  destruct IH as [-> | ?]; [by left | right; lia].
Qed.

(** A string that [trim] changes gets shorter. *)
Lemma trim_length s : trim s = s \/ (String.length (trim s) < String.length s)%nat.
Proof.
  unfold trim. destruct (trimStart_length s) as [-> | Hs].
  - apply trimEnd_length.
  - right. destruct (trimEnd_length (trimStart s)) as [-> | ?]; lia.
Qed.

Lemma trimEnd_trimStart_head s :
  trimStart (trimEnd s) = trimEnd (trimStart s).
Proof.
  induction s as [|c s IH]; simpl; [done|].
  destruct (isWhiteSpace c) eqn:Hc; simpl.
  - destruct (String.eqb_spec (trimEnd s) "") as [He|Hne]; simpl.
    + rewrite <- IH, He. done.
    + rewrite Hc. exact IH.
  - by rewrite Hc.
Qed.

Lemma trimStart_idem s : trimStart (trimStart s) = trimStart s.
Proof.
  induction s as [|c s IH]; simpl; [done|].
  destruct (isWhiteSpace c) eqn:Hc; [done|]. simpl. by rewrite Hc.
Qed.

Lemma trimEnd_idem s : trimEnd (trimEnd s) = trimEnd s.
Proof.
  induction s as [|c s IH]; simpl; [done|].
  destruct (isWhiteSpace c && String.eqb (trimEnd s) "")%bool eqn:Hc; simpl; [done|].
  by rewrite IH, Hc.
Qed.

Lemma trim_idem s : trim (trim s) = trim s.
Proof.
  unfold trim. by rewrite (trimEnd_trimStart_head (trimStart s)), trimStart_idem, trimEnd_idem.
Qed.

(** Lower-casing a string that [trim] changes gives a string that [trim]
    changes. *)
Lemma toLowerCase_untrimmed s : trim s <> s -> trim (toLowerCase s) <> toLowerCase s.
Proof.
  intros Hne Heq. rewrite trim_toLowerCase in Heq.
  destruct (trim_length s) as [?|Hlt]; [done|].
  apply (f_equal String.length) in Heq. rewrite !length_toLowerCase in Heq. lia.
Qed.

(** ** The dispatcher *)

Lemma isSelectEventId_covered u : isSelectEventId u = true -> isSelectEventById u = true.
Proof.
  unfold isSelectEventId, isSelectEventById. intros Hu.
  rewrite !(includes_trans u _ _ Hu); reflexivity.
Qed.

Lemma answers_traced w k : answers (traced w) k <-> answers w k.
Proof. done. Qed.

Lemma query_insert_event sql params w event w' :
  isInsertEvent (normalize sql) = true ->
  createEvent (Js.nth params 0) (Js.nth params 1) (Js.nth params 2)
    (say Log "✅ INSERT INTO events matched!" (traced w)) = (Ok (Some event), w') ->
  query sql params w
  = (Ok [Rec (InsertId (id event))], say Log "✅ Created event successfully:" w').
Proof.
  unfold isInsertEvent, query. intros -> Hrun. unfold_monad. simpl.
  unfold traced in Hrun. by rewrite Hrun.
Qed.

Lemma query_select_event_by_id sql params w r w' :
  isInsertEvent (normalize sql) = false ->
  isSelectEventById (normalize sql) = true ->
  getEventById (Js.nth params 0) (traced w) = (Ok r, w') ->
  query sql params w = (Ok [Rows (EventRow <$> nonNull r)], w').
Proof.
  unfold isInsertEvent, isSelectEventById, query. intros -> -> Hrun. unfold_monad. simpl.
  unfold traced in Hrun. by rewrite Hrun.
Qed.

Lemma query_select_events sql params w events w' :
  isInsertEvent (normalize sql) = false ->
  isSelectEventById (normalize sql) = false ->
  isSelectEvents (normalize sql) = true ->
  getAllEvents (say Log "✅ SELECT * FROM events matched!" (traced w)) = (Ok events, w') ->
  query sql params w = (Ok [Rows (EventRow <$> events)], say Log "Fetched events:" w').
Proof.
  unfold isInsertEvent, isSelectEventById, isSelectEvents, query.
  intros -> H2 H4 Hrun. unfold_monad. simpl. rewrite H2, H4.
  destruct (includes (normalize sql) "SELECT ID FROM EVENTS WHERE ID = ?") eqn:H3.
  { apply isSelectEventId_covered in H3. unfold isSelectEventById in H3. congruence. }
  unfold traced in Hrun. by rewrite Hrun.
Qed.

Lemma query_existence_check sql params w r w' :
  isInsertEvent (normalize sql) = false ->
  isSelectEventById (normalize sql) = false ->
  isSelectEvents (normalize sql) = false ->
  isExistenceCheck (normalize sql) = true ->
  isEmailRegisteredForEvent (Js.nth params 0) (Js.nth params 1) (traced w) = (Ok r, w') ->
  query sql params w = (Ok (if r then [Rows [IdRow 1]] else [Rows []]), w').
Proof.
  unfold isInsertEvent, isSelectEventById, isSelectEvents, isExistenceCheck, query.
  intros -> H2 H4 -> Hrun. unfold_monad. simpl. rewrite H2, H4.
  destruct (includes (normalize sql) "SELECT ID FROM EVENTS WHERE ID = ?") eqn:H3.
  { apply isSelectEventId_covered in H3. unfold isSelectEventById in H3. congruence. }
  unfold traced in Hrun. by rewrite Hrun.
Qed.

Lemma query_insert_registration sql params w registration w' :
  isInsertEvent (normalize sql) = false ->
  isSelectEventById (normalize sql) = false ->
  isSelectEvents (normalize sql) = false ->
  isExistenceCheck (normalize sql) = false ->
  isInsertRegistration (normalize sql) = true ->
  createRegistration (Js.nth params 0) (Js.nth params 1) (Js.nth params 2) (traced w)
  = (Ok (Some registration), w') ->
  query sql params w = (Ok [Rec (InsertId (id registration))], w').
Proof.
  unfold isInsertEvent, isSelectEventById, isSelectEvents, isExistenceCheck,
    isInsertRegistration, query.
  intros -> H2 H4 -> -> Hrun. unfold_monad. simpl. rewrite H2, H4.
  destruct (includes (normalize sql) "SELECT ID FROM EVENTS WHERE ID = ?") eqn:H3.
  { apply isSelectEventId_covered in H3. unfold isSelectEventById in H3. congruence. }
  unfold traced in Hrun. by rewrite Hrun.
Qed.

Lemma query_join sql params w rows w' :
  isInsertEvent (normalize sql) = false ->
  isSelectEventById (normalize sql) = false ->
  isSelectEvents (normalize sql) = false ->
  isExistenceCheck (normalize sql) = false ->
  isInsertRegistration (normalize sql) = false ->
  isJoin (normalize sql) = true ->
  getRegistrationsWithEvents (traced w) = (Ok rows, w') ->
  query sql params w = (Ok [Rows (JoinedRow <$> rows)], w').
Proof.
  unfold isInsertEvent, isSelectEventById, isSelectEvents, isExistenceCheck,
    isInsertRegistration, isJoin, query.
  intros -> H2 H4 -> -> -> Hrun. unfold_monad. simpl. rewrite H2, H4.
  destruct (includes (normalize sql) "SELECT ID FROM EVENTS WHERE ID = ?") eqn:H3.
  { apply isSelectEventId_covered in H3. unfold isSelectEventById in H3. congruence. }
  unfold traced in Hrun. by rewrite Hrun.
Qed.

(** C2. A text that matches none of the six patterns gets the empty result
    [[[]]], whatever the parameters: nothing is raised, no request is made
    and no collection changes; besides the three opening lines the console
    receives six lines, all of them warnings. *)
Theorem query_unmatched (sql : string) (params : list value) (w : world) :
  recognized (normalize sql) = false ->
  run (query sql params) w = Ok [Rows []]
  /\ sameStore w (after (query sql params) w)
  /\ calls (after (query sql params) w) = calls w
  /\ console (after (query sql params) w) = console w ++ queryTrace ++ unmatchedWarnings
  /\ Forall (fun e => lvl e = Warn) unmatchedWarnings.
Proof.
  unfold recognized. intros Hrec.
  repeat (apply orb_false_elim in Hrec as [Hrec ?]).
  unfold isInsertEvent, isSelectEventById, isSelectEvents, isExistenceCheck,
    isInsertRegistration, isJoin in *.
  destruct (includes (normalize sql) "SELECT ID FROM EVENTS WHERE ID = ?") eqn:Hthird.
  { apply isSelectEventId_covered in Hthird. unfold isSelectEventById in Hthird.
    congruence. }
  unfold query. unfold_monad. simpl.
  repeat match goal with H : _ = false |- _ => rewrite H; clear H end.
  simpl. repeat split.
  - by rewrite <- !app_assoc.
  - repeat constructor.
Qed.

Lemma query_unmatched_witness :
  run (query "DELETE FROM events WHERE id = ?" [VStr "e1"]) (emptyWorld healthy)
  = Ok [Rows []]
  /\ console (after (query "DELETE FROM events WHERE id = ?" [VStr "e1"])
                    (emptyWorld healthy))
     = queryTrace ++ unmatchedWarnings.
Proof.
  destruct (query_unmatched "DELETE FROM events WHERE id = ?" [VStr "e1"]
              (emptyWorld healthy) eq_refl) as (Hrun & _ & _ & Hconsole & _).
  split; [exact Hrun | exact Hconsole].
Defined.

(** ** Registrations *)

Lemma createRegistration_created name email event_id w :
  answersNext 2 w ->
  validId (autoId (replies w (calls w))) = true ->
  lookupDoc (autoId (replies w (calls w))) (registrations w) = None ->
  let r := replies w (calls w) in
  let data := Registration.Data (VStr (trim name)) (VStr (toLowerCase (trim email)))
                                (VStr (toString event_id)) (serverTime r) in
  exists w1,
    createRegistration (VStr name) (VStr email) event_id w
    = (Ok (Some (Object (autoId r) data)), w1)
    /\ registrations w1 = insertDoc (autoId r) data (registrations w)
    /\ events w1 = events w /\ users w1 = users w
    /\ replies w1 = replies w /\ calls w1 = S (S (calls w)).
Proof.
  intros Ha Hv Hfresh r data. subst r data.
  pose proof (Ha 0%nat ltac:(lia)) as Ha0. pose proof (Ha 1%nat ltac:(lia)) as Ha1.
  unfold answers in Ha1. rewrite Nat.add_1_r in Ha1.
  unfold createRegistration, coll_add, doc_get, docRef, call_trim. unfold_monad. simpl.
  rewrite (request_answered _ Ha0). simpl. rewrite Hv, Hfresh. simpl.
  rewrite Hv. simpl. unfold request. simpl. rewrite Ha1. simpl.
  unfold docToObject. simpl. rewrite lookupDoc_insertDoc_fresh by done.
  eexists. split; [reflexivity|]. by simpl.
Qed.

(** What a registration that succeeded has stored *)
Lemma createRegistration_stored name email event_id w r w1 :
  createRegistration name email event_id w = (Ok r, w1) ->
  exists n m i t,
    let d := Registration.Data (VStr (trim n)) (VStr (toLowerCase (trim m)))
                               (VStr (toString event_id)) t in
    name = VStr n /\ email = VStr m /\ r = Some (Object i d)
    /\ (i, d) ∈ registrations w1.
Proof.
  unfold createRegistration, coll_add, doc_get, docRef, call_trim.
  destruct name as [| | |n]; unfold_monad; simpl; try discriminate.
  destruct email as [| | |m]; simpl; try discriminate.
  case_request; [discriminate|].
  destruct (validId (autoId (replies w (calls w)))) eqn:Hv; simpl; [|discriminate].
  destruct (lookupDoc (autoId (replies w (calls w))) (registrations w)) eqn:Hfresh;
    simpl; [discriminate|].
  rewrite Hv. simpl. unfold request. simpl.
  destruct (fault (replies w (S (calls w)))); simpl; [discriminate|].
  intros Heq. injection Heq as <- <-. simpl.
  exists n, m, (autoId (replies w (calls w))), (serverTime (replies w (calls w))).
  split; [done|]. split; [done|].
  unfold docToObject. simpl. rewrite lookupDoc_insertDoc_fresh by done.
  split; [done|].
  apply lookupDoc_Some_elem. by apply lookupDoc_insertDoc_fresh.
Qed.

(** C8, as stated, fails: a text that contains INSERT INTO REGISTRATIONS and
    also matches an earlier pattern is dispatched to that one.  The text
    below lists the events: no registration is created and the result
    carries no [insertId]. *)
Lemma insert_text_dispatched_earlier :
  includes (normalize insertSelectSql) "INSERT INTO REGISTRATIONS" = true
  /\ run (query insertSelectSql [VStr "Asha"; VStr "asha@muj.edu"; VStr "e1"])
         (emptyWorld healthy) = Ok [Rows []]
  /\ registrations (after (query insertSelectSql
                             [VStr "Asha"; VStr "asha@muj.edu"; VStr "e1"])
                          (emptyWorld healthy)) = [].
Proof. repeat split. Qed.

(** C8, amended. A text containing INSERT INTO EVENTS, and a text containing
    INSERT INTO REGISTRATIONS that matches none of the patterns tested
    before it, makes the dispatcher create the record from the
    parameters in their order and return [[{ insertId }]] with the id of
    the record just created (the store answering and generating a fresh
    id). *)
Theorem query_insert (sql : string) (w : world) :
  answersNext 2 w ->
  validId (autoId (replies w (calls w))) = true ->
  (forall title date venue,
     includes (normalize sql) "INSERT INTO EVENTS" = true ->
     storable (Event.Data title date venue 0) = true ->
     lookupDoc (autoId (replies w (calls w))) (events w) = None ->
     exists i t,
       run (query sql [title; date; venue]) w = Ok [Rec (InsertId i)]
       /\ events (after (query sql [title; date; venue]) w)
          = insertDoc i (Event.Data title date venue t) (events w))
  /\ (forall name email event_id,
        includes (normalize sql) "INSERT INTO REGISTRATIONS" = true ->
        isInsertEvent (normalize sql) = false ->
        isSelectEventById (normalize sql) = false ->
        isSelectEvents (normalize sql) = false ->
        isExistenceCheck (normalize sql) = false ->
        lookupDoc (autoId (replies w (calls w))) (registrations w) = None ->
        exists i t,
          run (query sql [VStr name; VStr email; event_id]) w = Ok [Rec (InsertId i)]
          /\ registrations (after (query sql [VStr name; VStr email; event_id]) w)
             = insertDoc i
                 (Registration.Data (VStr (trim name)) (VStr (toLowerCase (trim email)))
                                    (VStr (toString event_id)) t)
                 (registrations w)).
Proof.
  intros Ha Hv. split.
  - intros title date venue Hsql Hs Hfresh.
    destruct (createEvent_created title date venue
                (say Log "✅ INSERT INTO events matched!" (traced w)) Hs Ha Hv Hfresh)
      as (w1 & Hrun & Hev & _).
    unfold run, after.
    erewrite query_insert_event; [| |exact Hrun].
    + cbn [fst snd id]. eauto.
    + unfold isInsertEvent. rewrite Hsql. apply orb_true_r.
  - intros name email event_id Hsql H1 H2 H3 H4 Hfresh.
    destruct (createRegistration_created name email event_id (traced w) Ha Hv Hfresh)
      as (w1 & Hrun & Hreg & _).
    unfold run, after.
    erewrite query_insert_registration; [|done..|exact Hrun].
    cbn [fst snd id]. eauto.
Qed.

Lemma query_insert_witness :
  (exists i t,
     run (query insertEventSql [VStr "AI Workshop"; VStr "2025-12-05"; VStr "Lab 3"])
         (emptyWorld healthy) = Ok [Rec (InsertId i)]
     /\ events (after (query insertEventSql
                         [VStr "AI Workshop"; VStr "2025-12-05"; VStr "Lab 3"])
                      (emptyWorld healthy))
        = insertDoc i (Event.Data (VStr "AI Workshop") (VStr "2025-12-05") (VStr "Lab 3") t)
                    [])
  /\ (exists i t,
        run (query insertRegistrationSql [VStr " Asha "; VStr "Asha@MUJ.edu"; VStr "e1"])
            (emptyWorld healthy) = Ok [Rec (InsertId i)]
        /\ registrations (after (query insertRegistrationSql
                                   [VStr " Asha "; VStr "Asha@MUJ.edu"; VStr "e1"])
                                (emptyWorld healthy))
           = insertDoc i
               (Registration.Data (VStr "Asha") (VStr "asha@muj.edu") (VStr "e1") t) []).
Proof.
  split.
  - destruct (query_insert insertEventSql (emptyWorld healthy)) as [Hevent _].
    + intros k _. reflexivity.
    + reflexivity.
    + apply (Hevent (VStr "AI Workshop") (VStr "2025-12-05") (VStr "Lab 3"));
        reflexivity.
  - destruct (query_insert insertRegistrationSql (emptyWorld healthy)) as [_ Hreg].
    + intros k _. reflexivity.
    + reflexivity.
    + apply (Hreg " Asha " "Asha@MUJ.edu" (VStr "e1")); reflexivity.
Defined.

(** ** The duplicate check *)

Lemma isEmailRegisteredForEvent_answered email eventId w :
  answers w 0 ->
  isEmailRegisteredForEvent (VStr email) eventId w
  = (Ok (existsb (fun p => registeredFor email eventId (snd p)) (registrations w)), tick w).
Proof.
  intros Ha. unfold isEmailRegisteredForEvent, query_get, call_toLowerCase.
  unfold_monad. simpl. rewrite (request_answered _ Ha). simpl. do 2 f_equal.
  unfold registeredFor.
  induction (registrations w) as [|p l IH]; simpl; [done|].
  destruct (bool_decide _ && bool_decide _); simpl; [done | exact IH].
Qed.

Lemma isEmailRegisteredForEvent_none email eventId w :
  existsb (fun p => registeredFor email eventId (snd p)) (registrations w) = false ->
  exists w', isEmailRegisteredForEvent (VStr email) eventId w = (Ok false, w')
             /\ sameStore w w'.
Proof.
  intros Hnone. destruct (fault (replies w (calls w))) as [e|] eqn:Hf.
  - destruct (isEmailRegisteredForEvent_failed (VStr email) eventId w e Hf)
      as (w' & Hrun & Hs). eauto.
  - rewrite isEmailRegisteredForEvent_answered
      by (unfold answers; by rewrite Nat.add_0_r).
    rewrite Hnone. returns.
Qed.

(** The first three tests of [query] fail on the text of the check and the
    fourth succeeds, and likewise for the other texts of the routes. *)
Lemma query_existenceCheckSql params w r w' :
  isEmailRegisteredForEvent (Js.nth params 0) (Js.nth params 1) (traced w) = (Ok r, w') ->
  query existenceCheckSql params w = (Ok (if r then [Rows [IdRow 1]] else [Rows []]), w').
Proof. by apply query_existence_check. Qed.

Lemma query_selectEventIdSql params w r w' :
  getEventById (Js.nth params 0) (traced w) = (Ok r, w') ->
  query selectEventIdSql params w = (Ok [Rows (EventRow <$> nonNull r)], w').
Proof. by apply query_select_event_by_id. Qed.

(** ** The email pattern *)

Module RegexFacts.
Import Regex RegexShape.

Lemma dead_not_nullable r : dead r = true -> nullable r = false.
Proof.
  induction r as [| |p|a IHa b IHb|a IHa b IHb|a IHa]; simpl; try done.
  - intros [Ha|Hb]%orb_true_iff; [rewrite IHa | rewrite IHb]; try done.
    apply andb_false_r.
  - intros [Ha Hb]%andb_true_iff. by rewrite IHa, IHb.
Qed.

Lemma dead_deriv c r : dead r = true -> dead (deriv c r) = true.
Proof.
  induction r as [| |p|a IHa b IHb|a IHa b IHb|a IHa]; simpl; try done.
  - intros [Ha|Hb]%orb_true_iff.
    + rewrite (dead_not_nullable a Ha). simpl. by rewrite IHa.
    + destruct (nullable a); simpl; rewrite ?IHb, ?Hb by done;
        rewrite ?orb_true_r; done.
  - intros [Ha Hb]%andb_true_iff. by rewrite IHa, IHb.
  - intros Ha. by rewrite IHa.
Qed.

Lemma dead_matches r s : dead r = true -> matches r s = false.
Proof.
  revert r. induction s as [|c s IH]; intros r Hr; simpl.
  - by apply dead_not_nullable.
  - apply IH. by apply dead_deriv.
Qed.

Lemma refuses_deriv_dead c r : refuses c r = true -> dead (deriv c r) = true.
Proof.
  induction r as [| |p|a IHa b IHb|a IHa b IHb|a IHa]; simpl; try done.
  - intros Hp. by destruct (p c).
  - intros [Ha Hb]%andb_true_iff.
    destruct (nullable a); simpl; rewrite IHa by done; simpl; [by apply IHb | done].
  - intros [Ha Hb]%andb_true_iff. by rewrite IHa, IHb.
  - intros Ha. by rewrite IHa.
Qed.

Lemma refuses_deriv c c' r : refuses c r = true -> refuses c (deriv c' r) = true.
Proof.
  induction r as [| |p|a IHa b IHb|a IHa b IHb|a IHa]; simpl; try done.
  - intros _. by destruct (p c').
  - intros [Ha Hb]%andb_true_iff.
    destruct (nullable a); simpl; rewrite IHa, ?IHb, ?Hb by done; done.
  - intros [Ha Hb]%andb_true_iff. by rewrite IHa, IHb.
  - intros Ha. by rewrite IHa, Ha.
Qed.

Lemma refuses_matches c r s :
  refuses c r = true -> occurs c s = true -> matches r s = false.
Proof.
  revert r. induction s as [|c' s IH]; intros r Hr; simpl; [done|].
  intros [Hc|Hs]%orb_true_iff.
  - apply Ascii.eqb_eq in Hc as <-. apply dead_matches. by apply refuses_deriv_dead.
  - apply IH; [by apply refuses_deriv | done].
Qed.

End RegexFacts.

Lemma trimStart_noWhiteSpace s : hasWhiteSpace s = false -> trimStart s = s.
Proof.
  unfold hasWhiteSpace. destruct s as [|c s]; simpl; [done|].
  by intros [-> _]%orb_false_elim.
Qed.

Lemma trimEnd_noWhiteSpace s : hasWhiteSpace s = false -> trimEnd s = s.
Proof.
  unfold hasWhiteSpace. induction s as [|c s IH]; simpl; [done|].
  intros [-> Hs]%orb_false_elim. simpl. by rewrite IH.
Qed.

Lemma trim_hasWhiteSpace s : trim s <> s -> hasWhiteSpace s = true.
Proof.
  intros Hne. destruct (hasWhiteSpace s) eqn:Hs; [done|]. destruct Hne.
  unfold trim. by rewrite trimStart_noWhiteSpace, trimEnd_noWhiteSpace.
Qed.

(** The pattern refuses every text with white space in it, so every text
    that [trim] would change. *)
Lemma emailRegex_whiteSpace s :
  hasWhiteSpace s = true -> Regex.matches emailRegex s = false.
Proof.
  unfold hasWhiteSpace. intros Hs. apply existsb_exists in Hs as (c & Hin & Hc).
  apply (RegexFacts.refuses_matches c).
  - simpl. rewrite Hc. simpl.
    destruct c as [[] [] [] [] [] [] [] []]; try discriminate Hc; reflexivity.
  - clear Hc. induction s as [|c' s IH]; simpl in *; [done|].
    destruct Hin as [->|Hin]; [by rewrite Ascii.eqb_refl | rewrite IH by done].
    apply orb_true_r.
Qed.

(** ** [POST /register] *)

Lemma existsb_registeredFor email eventId (l : list (string * Registration.data)) :
  (forall i d, (i, d) ∈ l -> registeredFor email eventId d = false) ->
  existsb (fun p => registeredFor email eventId (snd p)) l = false.
Proof.
  induction l as [|[i d] l IH]; simpl; [done|]. intros Hall.
  rewrite (Hall i d) by left. simpl. apply IH. intros j e Hin. apply (Hall j e). by right.
Qed.

Lemma existsb_registeredFor_elem email eventId i d (l : list (string * Registration.data)) :
  (i, d) ∈ l -> registeredFor email eventId d = true ->
  existsb (fun p => registeredFor email eventId (snd p)) l = true.
Proof.
  intros Hin Hd. apply existsb_exists. exists (i, d). split; [by apply list_elem_of_In | done].
Qed.

(** A request whose email is refused by the pattern: the handler answers
    with a redirect and the world stays as it is. *)
Lemma postRegister_refused name email event_id w :
  emailRegex_test email = false ->
  exists url, postRegister name email event_id w = (Ok (Redirect url), w).
Proof.
  intros Hre. unfold postRegister. unfold_monad.
  destruct (negb (truthy name) || negb (truthy email) || negb (truthy event_id));
    [by eauto|].
  rewrite Hre. simpl. by eauto.
Qed.

(** A request that gets as far as the duplicate check and finds the
    registration is answered with the already-registered redirect. *)
Lemma postRegister_duplicate name email event_id w ev i d :
  truthy name = true -> truthy (VStr email) = true -> truthy event_id = true ->
  emailRegex_test (VStr email) = true ->
  validId (toString event_id) = true ->
  lookupDoc (toString event_id) (events w) = Some ev ->
  (i, d) ∈ registrations w -> registeredFor email event_id d = true ->
  answersNext 2 w ->
  exists w', postRegister name (VStr email) event_id w = (Ok (alreadyRegistered event_id), w')
             /\ sameStore w w'.
Proof.
  intros Hn Hm He Hre Hv Hev Hin Hd Ha.
  pose proof (Ha 0%nat ltac:(lia)) as Ha0. pose proof (Ha 1%nat ltac:(lia)) as Ha1.
  unfold postRegister. unfold_monad. rewrite Hn, Hm, He, Hre. cbn [negb orb].
  change "SELECT id FROM events WHERE id = ?" with selectEventIdSql.
  erewrite query_selectEventIdSql;
    [|cbn [Js.nth]; simpl; apply getEventById_found; [done | by apply answers_traced]].
  change (Js.nth [event_id] 0) with event_id. change (events (traced w)) with (events w).
  rewrite Hev. cbn -[query].
  change "SELECT id FROM registrations WHERE email = ? AND event_id = ?"
    with existenceCheckSql.
  erewrite query_existenceCheckSql.
  2:{ cbn [Js.nth]. simpl. apply isEmailRegisteredForEvent_answered.
      apply answers_traced. apply answers_tick. by apply answers_traced. }
  cbn [registrations traced say tick].
  rewrite (existsb_registeredFor_elem email event_id i d) by done.
  cbn -[query]. returns.
Qed.



(** ** Emails with white space around them *)

Lemma insertDoc_elem {D} i (d : D) l p : p ∈ insertDoc i d l <-> p = (i, d) \/ p ∈ l.
Proof.
  unfold insertDoc. induction l as [|[j e] l IH]; simpl.
  - rewrite list_elem_of_singleton. split; [by left | intros [?|H]; [done | inversion H]].
  - destruct (String.leb j i); rewrite !elem_of_cons; [rewrite IH|]; tauto.
Qed.

Lemma createRegistration_frame name email event_id w r w1 :
  createRegistration name email event_id w = (r, w1) ->
  events w1 = events w /\ users w1 = users w
  /\ (registrations w1 = registrations w
      \/ exists n m i t,
           name = VStr n /\ email = VStr m
           /\ registrations w1
              = insertDoc i (Registration.Data (VStr (trim n)) (VStr (toLowerCase (trim m)))
                                               (VStr (toString event_id)) t)
                          (registrations w)).
Proof.
  unfold createRegistration, coll_add, doc_get, docRef, call_trim.
  destruct name as [| | |n]; unfold_monad; simpl; try (intros [= <- <-]; by auto).
  destruct email as [| | |m]; simpl; try (intros [= <- <-]; by auto).
  case_request; [intros [= <- <-]; by auto|].
  destruct (validId (autoId (replies w (calls w)))) eqn:Hv; simpl;
    [|intros [= <- <-]; by auto].
  destruct (lookupDoc (autoId (replies w (calls w))) (registrations w)) eqn:Hfresh;
    simpl; [intros [= <- <-]; by auto|].
  rewrite Hv. simpl. unfold request. simpl.
  destruct (fault (replies w (S (calls w)))); simpl; intros [= <- <-]; simpl;
    (split; [done|]); (split; [done|]); right; eauto 10.
Qed.

Lemma createRegistration_emailsTrimmed name email event_id w r w1 :
  createRegistration name email event_id w = (r, w1) ->
  emailsTrimmed (registrations w) -> emailsTrimmed (registrations w1).
Proof.
  intros Hrun Hw. apply createRegistration_frame in Hrun as (_ & _ & [-> | Hnew]); [done|].
  destruct Hnew as (n & m & i & t & _ & _ & ->).
  intros j d [[= -> ->]|Hin]%insertDoc_elem; [|by eapply Hw].
  eexists. split; [reflexivity|]. by rewrite trim_toLowerCase, trim_idem.
Qed.

Lemma registeredFor_untrimmed email event_id d :
  trim email <> email ->
  (exists m, Registration.email d = VStr m /\ trim m = m) ->
  registeredFor email event_id d = false.
Proof.
  intros Hne (m & Hm & Htrim). unfold registeredFor. rewrite Hm.
  rewrite bool_decide_eq_false_2; [done|]. intros [= ->].
  by apply (toLowerCase_untrimmed email).
Qed.

(** C9, as stated, fails at its conclusion: the existence check is indeed
    empty for an email with a space in front, but [POST /register] answers
    such a request with the invalid-format redirect before the duplicate
    check, and stores nothing. *)
Lemma padded_email_refused_by_route :
  run (query existenceCheckSql [VStr " asha@muj.edu"; VStr "e1"]) campusWithAsha
  = Ok [Rows []]
  /\ postRegister (VStr "Asha") (VStr " asha@muj.edu") (VStr "e1") campusWithAsha
     = (Ok (Redirect "/register/e1?message=Invalid email format&type=danger"),
        campusWithAsha).
Proof. split; reflexivity. Qed.

(** C9, amended. [createRegistration] stores the email trimmed and in lower
    case, and the existence check lower-cases its argument without trimming
    it: on a store whose emails are trimmed, the check with an email that
    has white space around it returns [[[]]], and an INSERT sent to the
    dispatcher after it stores a second registration with the email and
    event id of the first.  [POST /register] itself refuses such an email
    at its format test and leaves the world as it is. *)
Theorem padded_email_check (email : string) (event_id : value) (w : world) :
  trim email <> email ->
  emailsTrimmed (registrations w) ->
  let w' := after (query existenceCheckSql [VStr email; event_id]) w in
  run (query existenceCheckSql [VStr email; event_id]) w = Ok [Rows []]
  /\ (forall name r w1,
        createRegistration name (VStr email) event_id w = (Ok r, w1) ->
        emailsTrimmed (registrations w1)
        /\ exists i d, (i, d) ∈ registrations w1
                       /\ Registration.email d = VStr (toLowerCase (trim email)))
  /\ (forall name, exists url,
        postRegister name (VStr email) event_id w = (Ok (Redirect url), w))
  /\ (forall name i0 d0,
        (i0, d0) ∈ registrations w ->
        Registration.email d0 = VStr (toLowerCase (trim email)) ->
        Registration.event_id d0 = VStr (toString event_id) ->
        answersNext 2 w' ->
        validId (autoId (replies w' (calls w'))) = true ->
        lookupDoc (autoId (replies w' (calls w'))) (registrations w') = None ->
        let w2 := after (query insertRegistrationSql [VStr name; VStr email; event_id]) w' in
        exists i d,
          run (query insertRegistrationSql [VStr name; VStr email; event_id]) w'
          = Ok [Rec (InsertId i)]
          /\ i <> i0
          /\ (i, d) ∈ registrations w2 /\ (i0, d0) ∈ registrations w2
          /\ Registration.email d = Registration.email d0
          /\ Registration.event_id d = Registration.event_id d0).
Proof.
  intros Hne Htrimmed w'.
  destruct (isEmailRegisteredForEvent_none email event_id (traced w))
    as (wc & Hcheck & Hsame).
  { apply existsb_registeredFor. intros i d Hin.
    apply registeredFor_untrimmed; [done | by eapply Htrimmed]. }
  assert (Hquery : query existenceCheckSql [VStr email; event_id] w = (Ok [Rows []], wc)).
  { erewrite query_existenceCheckSql; [|exact Hcheck]. done. }
  subst w'. unfold run, after. rewrite Hquery. cbn [fst snd].
  split; [done|]. split; [|split].
  - intros name r w1 Hcreated. split.
    + by eapply createRegistration_emailsTrimmed.
    + destruct (createRegistration_stored _ _ _ _ _ _ Hcreated)
        as (n & m & i & t & _ & [= <-] & _ & Hin).
      eauto.
  - intros name. apply postRegister_refused. unfold emailRegex_test.
    apply emailRegex_whiteSpace. by apply trim_hasWhiteSpace.
  - intros name i0 d0 Hin Hmail Hevent Ha Hv Hfresh. cbv zeta.
    destruct Hsame as (_ & Hreg & _). cbn [registrations traced say] in Hreg.
    destruct (createRegistration_created name email event_id (traced wc))
      as (w2 & Hrun & Hreg2 & _); [done..|].
    erewrite query_insert_registration; [|done..|exact Hrun].
    cbn [fst snd id]. do 2 eexists. split; [reflexivity|].
    cbn [registrations traced say] in Hreg2. rewrite Hreg2.
    split; [|split; [|split]].
    + intros <-. rewrite <- Hreg in Hin.
      by apply (proj1 (lookupDoc_None_elem _ _) Hfresh d0).
    + apply insertDoc_elem. by left.
    + apply insertDoc_elem. right. by rewrite Hreg.
    + by rewrite Hmail, Hevent.
Qed.

Lemma padded_email_check_witness :
  run (query existenceCheckSql [VStr " asha@muj.edu"; VStr "e1"]) campusWithAsha
  = Ok [Rows []]
  /\ exists i,
       run (query insertRegistrationSql [VStr "Asha"; VStr " asha@muj.edu"; VStr "e1"])
           (after (query existenceCheckSql [VStr " asha@muj.edu"; VStr "e1"])
                  campusWithAsha)
       = Ok [Rec (InsertId i)].
Proof.
  destruct (padded_email_check " asha@muj.edu" (VStr "e1") campusWithAsha)
    as (Hcheck & _ & _ & Hsecond).
  - discriminate.
  - intros i d Hin. apply list_elem_of_In in Hin. destruct Hin as [[= <- <-]|[]].
    by exists "asha@muj.edu".
  - split; [exact Hcheck|].
    edestruct (Hsecond "Asha" "g0") as (i & d & Hrun & _).
    + left.
    + reflexivity.
    + reflexivity.
    + intros k _. reflexivity.
    + reflexivity.
    + reflexivity.
    + by exists i.
Defined.

(** ** Sorting *)

Section SortFacts.

Context {A : Type} (before : A -> A -> bool).

Lemma insertStable_Permutation x l : Permutation (insertStable before x l) (x :: l).
Proof.
  induction l as [|y l IH]; simpl; [done|].
  destruct (before x y); [|done].
  rewrite IH. apply perm_swap.
Qed.

Lemma sortStable_Permutation l : Permutation (sortStable before l) l.
Proof.
  unfold sortStable. induction l as [|x l IH]; simpl; [done|].
  rewrite insertStable_Permutation. by constructor.
Qed.

(** No two elements are each to come before the other. *)
Hypothesis before_asym : forall x y, before x y = true -> before y x = false.

Lemma insertStable_HdRel a x l :
  inOrder before a x -> HdRel (inOrder before) a l -> HdRel (inOrder before) a (insertStable before x l).
Proof.
  intros Hax Hal. destruct l as [|y l]; simpl; [by constructor|].
  destruct (before x y); constructor; [by inversion Hal | done].
Qed.

Lemma insertStable_Sorted x l :
  Sorted (inOrder before) l -> Sorted (inOrder before) (insertStable before x l).
Proof.
  induction l as [|y l IH]; simpl; intros Hs.
  - by repeat constructor.
  - destruct (before x y) eqn:Hxy.
    + inversion Hs; subst. constructor; [by apply IH|].
      apply insertStable_HdRel; [by apply before_asym | done].
    + constructor; [done|]. by constructor.
Qed.

(** In the sorted list no element is to come after its successor. *)
Lemma sortStable_Sorted l : Sorted (inOrder before) (sortStable before l).
Proof.
  unfold sortStable. induction l as [|x l IH]; simpl; [constructor|].
  by apply insertStable_Sorted.
Qed.

End SortFacts.

(** ** The join *)

Lemma comesAfter_asym a b :
  comesAfter compareIdDesc a b = true -> comesAfter compareIdDesc b a = false.
Proof.
  unfold comesAfter, compareIdDesc, Js.sub.
  destruct (parseInt (Joined.id a)), (parseInt (Joined.id b)); try done.
  intros H%Z.ltb_lt. apply Z.ltb_ge. lia.
Qed.

Lemma descending_trans : Transitive descending.
Proof.
  intros a b c (m & n & Ha & Hb & Hmn) (n' & k & Hb' & Hc & Hnk).
  exists m, k. repeat split; try done. rewrite Hb in Hb'. injection Hb' as <-. lia.
Qed.

Lemma descending_of_inOrder a b :
  numericId a -> numericId b -> comesAfter compareIdDesc a b = false -> descending a b.
Proof.
  unfold comesAfter, compareIdDesc, idNumber. intros [m Hm] [n Hn].
  unfold idNumber in *. rewrite Hm, Hn. simpl. intros H%Z.ltb_ge.
  exists m, n. repeat split; try done. lia.
Qed.

(** When every id is a number, the sorted rows descend by that number. *)
Lemma sortStable_descending (l : list Joined.row) :
  Forall numericId l ->
  StronglySorted descending (sortStable (comesAfter compareIdDesc) l).
Proof.
  intros Hnum. apply Sorted_StronglySorted; [exact descending_trans|].
  assert (Hnum' : Forall numericId (sortStable (comesAfter compareIdDesc) l)).
  { eapply Permutation_Forall; [|exact Hnum]. symmetry. apply sortStable_Permutation. }
  pose proof (sortStable_Sorted _ comesAfter_asym l) as Hs.
  induction Hs as [|a l' Hs IH Hhd]; [constructor|].
  apply Forall_cons in Hnum' as [Ha Hl']. constructor; [by apply IH|].
  destruct Hhd as [|b l'' Hab]; constructor.
  apply Forall_cons in Hl' as [Hb _]. by apply descending_of_inOrder.
Qed.

Lemma buildEventsMap_snoc events e :
  buildEventsMap (events ++ [e]) = objectSet (id e) e (buildEventsMap events).
Proof. unfold buildEventsMap. by rewrite foldl_app. Qed.

Lemma buildEventsMap_proto events :
  Forall (fun e => id e <> "__proto__") events -> proto (buildEventsMap events) = None.
Proof.
  induction events as [|e events IH] using rev_ind; [done|].
  intros [Hl [He _]%Forall_cons]%Forall_app. rewrite buildEventsMap_snoc. unfold objectSet.
  destruct (String.eqb_spec (id e) "__proto__"); [done|]. simpl. by apply IH.
Qed.

Lemma find_snoc_ne {B} (f : B -> bool) l x : f x = false -> List.find f (l ++ [x]) = List.find f l.
Proof.
  intros Hx. induction l as [|y l IH]; simpl; [by rewrite Hx|].
  destruct (f y); [done | exact IH].
Qed.

Lemma find_snoc_fresh {B} (f : B -> bool) l x :
  f x = true -> (forall y, y ∈ l -> f y = false) -> List.find f (l ++ [x]) = Some x.
Proof.
  intros Hx Hl. induction l as [|y l IH]; simpl; [by rewrite Hx|].
  rewrite (Hl y) by left. apply IH. intros z Hz. apply Hl. by right.
Qed.

Lemma buildEventsMap_own events key :
  Forall (fun e => id e <> "__proto__") events ->
  NoDup (id <$> events) ->
  own (buildEventsMap events) !! key = List.find (fun e => String.eqb (id e) key) events.
Proof.
  induction events as [|e events IH] using rev_ind; [done|].
  intros [Hl [He _]%Forall_cons]%Forall_app Hnd.
  rewrite fmap_app in Hnd. apply NoDup_app in Hnd as (Hnd & Hfresh & _).
  rewrite buildEventsMap_snoc. unfold objectSet.
  destruct (String.eqb_spec (id e) "__proto__"); [done|]. simpl.
  destruct (decide (id e = key)) as [<-|Hne].
  - rewrite lookup_insert_eq. symmetry. apply find_snoc_fresh; [apply String.eqb_refl|].
    intros y Hy. apply String.eqb_neq. intros Heq.
    apply (Hfresh (id y)); [by apply list_elem_of_fmap_2 | rewrite Heq; simpl; left].
  - rewrite lookup_insert_ne by done. rewrite find_snoc_ne; [by apply IH|].
    by apply String.eqb_neq.
Qed.

Lemma joinRow_plain events reg :
  Forall (fun e => id e <> "__proto__") events ->
  NoDup (id <$> events) ->
  plainKey (toString (Registration.event_id (fields reg))) ->
  joinRow (buildEventsMap events) reg = specJoinRow events reg.
Proof.
  intros Hproto Hnd [Hkey Hne]. unfold joinRow, specJoinRow, objectGet.
  rewrite buildEventsMap_own, buildEventsMap_proto by done.
  destruct (List.find _ events); [done|].
  apply String.eqb_neq in Hne. rewrite Hne. unfold objectPrototypeGet.
  by rewrite bool_decide_eq_false_2.
Qed.

(** On keys that [Object.prototype] does not answer, the rows of the code
    are those of the specification, sorted. *)
Lemma joinRows_specJoin registrations events :
  Forall (fun e => id e <> "__proto__") events ->
  NoDup (id <$> events) ->
  Forall (fun reg => plainKey (toString (Registration.event_id (fields reg)))) registrations ->
  joinRows registrations events
  = sortStable (comesAfter compareIdDesc) (specJoin registrations events).
Proof.
  intros Hproto Hnd Hplain. unfold joinRows, specJoin. f_equal.
  induction Hplain as [|reg l Hreg Hl IH]; [done|]. simpl.
  rewrite joinRow_plain by done.
  destruct (specJoinRow events reg); [f_equal|]; exact IH.
Qed.

Lemma getAllEvents_answered w :
  answers w 0 ->
  exists w', getAllEvents w = (Ok (listedEvents (events w)), w') /\ sameStore w w'
             /\ replies w' = replies w /\ calls w' = S (calls w).
Proof.
  intros Ha. unfold getAllEvents, orderBy_get. unfold_monad.
  rewrite (request_answered _ Ha). simpl. rewrite snapshotToArray_docs.
  eexists. split; [reflexivity|]. done.
Qed.

Lemma getRegistrationsWithEvents_answered w :
  answersNext 2 w ->
  exists w',
    getRegistrationsWithEvents w
    = (Ok (joinRows (registrationObjects (registrations w)) (listedEvents (events w))), w')
    /\ sameStore w w'.
Proof.
  intros Ha. unfold getRegistrationsWithEvents. unfold_monad.
  rewrite getAllRegistrations_answered by (apply Ha; lia).
  destruct (getAllEvents_answered (tick w)) as (w' & Hrun & Hsame & _).
  { apply answers_tick, Ha. lia. }
  rewrite Hrun. eexists. split; [reflexivity | exact Hsame].
Qed.

Lemma getRegistrationsWithEvents_returns w :
  exists rows w', getRegistrationsWithEvents w = (Ok rows, w') /\ sameStore w w'.
Proof.
  unfold getRegistrationsWithEvents. unfold_monad.
  assert (Hregs : exists r w1, getAllRegistrations w = (Ok r, w1) /\ sameStore w w1).
  { destruct (fault (replies w (calls w))) as [e|] eqn:Hf.
    - destruct (getAllRegistrations_failed w e Hf) as (w1 & Hrun & Hs). eauto.
    - rewrite getAllRegistrations_answered by (unfold answers; by rewrite Nat.add_0_r).
      returns. }
  destruct Hregs as (r & w1 & -> & Hs1).
  destruct (getAllEvents_returns w1) as (evs & w2 & -> & Hs2).
  do 2 eexists. split; [reflexivity|].
  destruct Hs1 as (E1 & R1 & U1). destruct Hs2 as (E2 & R2 & U2).
  repeat split; congruence.
Qed.

(** The text of [GET /admin] reaches the join. *)
Lemma query_adminQuery params w rows w' :
  getRegistrationsWithEvents (traced w) = (Ok rows, w') ->
  query adminQuery params w = (Ok [Rows (JoinedRow <$> rows)], w').
Proof. by apply query_join. Qed.

Lemma listedEvents_elem l e :
  e ∈ listedEvents l <-> (id e, fields e) ∈ l /\ defined (Event.date (fields e)) = true.
Proof.
  unfold listedEvents. rewrite list_elem_of_fmap. split.
  - intros ([i d] & -> & Hin). simpl.
    rewrite sortStable_Permutation in Hin.
    apply list_elem_of_In, filter_In in Hin as [Hin Hd]. by apply list_elem_of_In in Hin.
  - intros [Hin Hd]. exists (id e, fields e). split; [by destruct e|].
    rewrite sortStable_Permutation. apply list_elem_of_In, filter_In.
    split; [by apply list_elem_of_In | done].
Qed.

Lemma listedEvents_ids l : NoDup (fst <$> l) -> NoDup (id <$> listedEvents l).
Proof.
  intros Hnd. unfold listedEvents. rewrite <- list_fmap_compose.
  assert (Hperm : Permutation
            (fst <$> sortStable
               (fun p q => negb (valueLeb (Event.date (snd p)) (Event.date (snd q))))
               (List.filter (fun p => defined (Event.date (snd p))) l))
            (fst <$> List.filter (fun p => defined (Event.date (snd p))) l)).
  { apply fmap_Permutation, sortStable_Permutation. }
  change (id ∘ (fun p : string * Event.data => Object (fst p) (snd p)))
    with (@fst string Event.data).
  rewrite Hperm. clear Hperm. induction l as [|[i d] l IH]; simpl; [constructor|].
  simpl in Hnd. apply NoDup_cons in Hnd as [Hi Hnd].
  destruct (defined (Event.date d)); simpl; [|by apply IH].
  apply NoDup_cons. split; [|by apply IH].
  intros ([j e] & Hj & Hin)%list_elem_of_fmap. simpl in Hj. subst j.
  apply list_elem_of_In, filter_In in Hin as [Hin _]. apply Hi.
  apply (list_elem_of_fmap_2 fst _ (i, e)). by apply list_elem_of_In.
Qed.

Lemma find_unique (events : list (object Event.data)) key e :
  NoDup (id <$> events) ->
  List.find (fun e => String.eqb (id e) key) events = Some e <-> e ∈ events /\ id e = key.
Proof.
  intros Hnd. induction events as [|x l IH]; simpl.
  - split; [done | intros [H _]; inversion H].
  - simpl in Hnd. apply NoDup_cons in Hnd as [Hx Hnd].
    destruct (String.eqb_spec (id x) key) as [Hk|Hk].
    + split.
      * intros [= ->]. split; [left | done].
      * intros [[->|Hin]%elem_of_cons Hid]; [done|].
        destruct Hx. rewrite Hk, <- Hid. by apply list_elem_of_fmap_2.
    + rewrite IH by done. split.
      * intros [Hin Hid]. split; [by right | done].
      * intros [[->|Hin]%elem_of_cons Hid]; [done | by split].
Qed.

(** X1. The join query on a store without keys that [Object.prototype] answers:
    the result is the one array of the rows that the specification
    describes, each registration with the fields of its event and none
    for a registration without one; and when every id is a number the rows
    are those rows sorted stably, descending by the number. *)
Theorem join_query_on_plain_keys (w : world) :
  answersNext 2 w ->
  NoDup (fst <$> events w) ->
  (forall i d, (i, d) ∈ events w -> i <> "__proto__") ->
  (forall i d, (i, d) ∈ registrations w ->
     plainKey (toString (Registration.event_id d))) ->
  exists rows,
    run (query adminQuery []) w = Ok [Rows (JoinedRow <$> rows)]
    /\ Permutation rows (specJoin (registrationObjects (registrations w))
                                  (listedEvents (events w)))
    /\ (forall row,
          row ∈ rows <->
          exists rid d eid ev,
            (rid, d) ∈ registrations w /\ (eid, ev) ∈ events w
            /\ defined (Event.date ev) = true
            /\ toString (Registration.event_id d) = eid
            /\ row = Joined.Row rid (Registration.name d) (Registration.email d)
                                (Event.title ev) (Event.date ev) (Event.venue ev))
    /\ (Forall numericId rows ->
          StronglySorted descending rows
          /\ rows = sortStable (comesAfter compareIdDesc)
                      (specJoin (registrationObjects (registrations w))
                                (listedEvents (events w)))).
Proof.
  intros Ha Hnd Hproto Hplain.
  destruct (getRegistrationsWithEvents_answered (traced w)) as (w' & Hrun & _).
  { intros k Hk. apply answers_traced. by apply Ha. }
  cbn [registrations events traced say] in Hrun.
  assert (Hids : NoDup (id <$> listedEvents (events w))) by by apply listedEvents_ids.
  rewrite joinRows_specJoin in Hrun; [|
    apply Forall_forall; intros e [He _]%listedEvents_elem; by eapply Hproto |
    done |
    apply Forall_forall; intros reg ([i d] & -> & Hin)%list_elem_of_fmap;
      by eapply Hplain ].
  eexists. split; [|split; [|split]].
  - unfold run. by erewrite query_adminQuery; [|exact Hrun].
  - apply sortStable_Permutation.
  - intros row. rewrite sortStable_Permutation. unfold specJoin.
    rewrite list_elem_of_omap. split.
    + intros (reg & ([rid d] & -> & Hin)%list_elem_of_fmap & Hrow).
      unfold specJoinRow in Hrow. simpl in Hrow.
      destruct (List.find _ _) as [e|] eqn:Hfind; [|done].
      apply find_unique in Hfind as [[He Hd]%listedEvents_elem Hid]; [|done].
      injection Hrow as <-. exists rid, d, (id e), (fields e). by repeat split.
    + intros (rid & d & eid & ev & Hin & Hev & Hd & Hkey & ->).
      exists (Object rid d). split.
      { by apply (list_elem_of_fmap_2 (fun p => Object (fst p) (snd p)) _ (rid, d)). }
      unfold specJoinRow. simpl.
      assert (Hfind : List.find
                (fun e => String.eqb (id e) (toString (Registration.event_id d)))
                (listedEvents (events w)) = Some (Object eid ev)).
      { apply find_unique; [done|]. split; [by apply listedEvents_elem | done]. }
      by rewrite Hfind.
  - intros Hnum. split; [|done]. apply sortStable_descending.
    eapply Permutation_Forall; [|exact Hnum]. apply sortStable_Permutation.
Qed.

Lemma join_query_on_plain_keys_witness :
  exists rows,
    run (query adminQuery []) fest = Ok [Rows (JoinedRow <$> rows)]
    /\ length rows = 3%nat
    /\ StronglySorted descending rows.
Proof.
  destruct (join_query_on_plain_keys fest) as (rows & Hrun & Hperm & Hrows & Hsorted).
  - intros k _. reflexivity.
  - apply (bool_decide_unpack _). reflexivity.
  - intros i d Hin. apply list_elem_of_In in Hin.
    destruct Hin as [Hin|[Hin|[]]]; injection Hin as <- <-; discriminate.
  - intros i d Hin. apply list_elem_of_In in Hin. unfold plainKey, objectPrototypeKeys.
    destruct Hin as [Hin|[Hin|[Hin|[Hin|[]]]]]; injection Hin as <- <-;
      (split; [apply (bool_decide_unpack _); reflexivity | discriminate]).
  - exists rows. split; [exact Hrun|]. split.
    + by rewrite Hperm.
    + apply Hsorted. apply Forall_forall. intros row Hrow.
      apply Hrows in Hrow as (rid & d & eid & ev & Hin & _ & _ & _ & ->).
      apply list_elem_of_In in Hin. unfold numericId, idNumber.
      destruct Hin as [Hin|[Hin|[Hin|[Hin|[]]]]]; injection Hin as <- <-; by eexists.
Defined.

(** The rows of that store: the registration of the event that is gone is
    dropped, and id 10 comes before id 9. *)
Example join_query_fest :
  run (query adminQuery []) fest
  = Ok [Rows [ JoinedRow (Joined.Row "10" (VStr "Dev") (VStr "dev@muj.edu")
                            (VStr "AI Workshop") (VStr "2025-12-05") (VStr "Lab 3"));
               JoinedRow (Joined.Row "9" (VStr "Ravi") (VStr "ravi@muj.edu")
                            (VStr "Tech Innovators Summit") (VStr "2025-12-01")
                            (VStr "Auditorium A"));
               JoinedRow (Joined.Row "3" (VStr "Asha") (VStr "asha@muj.edu")
                            (VStr "Tech Innovators Summit") (VStr "2025-12-01")
                            (VStr "Auditorium A")) ]].
Proof. reflexivity. Qed.

(** C1 fails on the code. A registration whose [event_id] is constructor
    is not dropped although no event has that id: [eventsMap] inherits
    that key from [Object.prototype], and the join returns a row
    whose three event fields are [undefined]. *)
Theorem join_keeps_inherited_key :
  events inheritedKeyWorld = []
  /\ registrations inheritedKeyWorld
     = [("g0", Registration.Data (VStr "Eve") (VStr "eve@muj.edu") (VStr "constructor") 0)]
  /\ specJoin (registrationObjects (registrations inheritedKeyWorld))
              (listedEvents (events inheritedKeyWorld)) = []
  /\ run (query adminQuery []) inheritedKeyWorld
     = Ok [Rows [JoinedRow (Joined.Row "g0" (VStr "Eve") (VStr "eve@muj.edu")
                              VUndefined VUndefined VUndefined)]].
Proof. repeat split. Qed.

Lemma getUserRole_fails_closed_witness :
  run (getUserRole (VStr "uid-9")) staffed = Ok (VStr "admin")
  /\ run (getUserRole (VStr "uid-1")) staffed = Ok (VStr "student")
  /\ run (getUserRole (VStr "uid-9"))
         (World [] [] (users staffed) (failing unavailable) 0 [])
     = Ok (VStr "student").
Proof.
  split; [|split].
  - destruct (getUserRole_fails_closed (VStr "uid-9") staffed) as (_ & Hfound & _).
    exact (Hfound "uid-9" _ eq_refl eq_refl eq_refl eq_refl).
  - destruct (getUserRole_fails_closed (VStr "uid-1") staffed) as (_ & _ & Habsent & _).
    apply Habsent. by intros s [= <-].
  - destruct (getUserRole_fails_closed (VStr "uid-9")
                (World [] [] (users staffed) (failing unavailable) 0 []))
      as (_ & _ & _ & Hfailed).
    exact (Hfailed unavailable eq_refl).
Defined.

Lemma deleteEvent_no_cascade_witness :
  run (deleteEvent (VStr "e1")) campusWithAsha = Ok true
  /\ events (after (deleteEvent (VStr "e1")) campusWithAsha) = []
  /\ registrations (after (deleteEvent (VStr "e1")) campusWithAsha)
     = registrations campusWithAsha
  /\ exists found,
       run (getRegistrationsByEventId (VStr "e1"))
           (after (deleteEvent (VStr "e1")) campusWithAsha) = Ok found
       /\ Object "g0" (Registration.Data (VStr "Asha") (VStr "asha@muj.edu") (VStr "e1") 0)
          ∈ found.
Proof.
  destruct (deleteEvent_no_cascade (VStr "e1") campusWithAsha)
    as (Hreg & _ & _ & Hdeleted & Horphan).
  destruct (Hdeleted eq_refl eq_refl) as [Hrun _].
  split; [exact Hrun|]. split; [reflexivity|]. split; [exact Hreg|].
  apply Horphan; [left | reflexivity | reflexivity].
Defined.

Lemma getAllRegistrations_returns w :
  exists r w', getAllRegistrations w = (Ok r, w') /\ sameStore w w'.
Proof.
  unfold getAllRegistrations, query_get. unfold_monad. case_request; returns.
Qed.

Lemma getRegistrationById_returns i w :
  exists r w', getRegistrationById i w = (Ok r, w') /\ sameStore w w'.
Proof.
  unfold getRegistrationById, doc_get, docRef. unfold_monad. simpl.
  destruct (validId (toString i)); simpl; [|returns]. case_request; returns.
Qed.

Lemma getRegistrationsByEventId_returns i w :
  exists r w', getRegistrationsByEventId i w = (Ok r, w') /\ sameStore w w'.
Proof.
  unfold getRegistrationsByEventId, query_get. unfold_monad. case_request; returns.
Qed.

(** X2. No lookup raises, whatever the world and the argument, and none
    changes a collection; the join included. *)
Theorem lookups_never_raise (w : world) :
  (exists r w', getAllEvents w = (Ok r, w') /\ sameStore w w')
  /\ (forall i, exists r w', getEventById i w = (Ok r, w') /\ sameStore w w')
  /\ (exists r w', getAllRegistrations w = (Ok r, w') /\ sameStore w w')
  /\ (forall i, exists r w', getRegistrationById i w = (Ok r, w') /\ sameStore w w')
  /\ (forall i, exists r w', getRegistrationsByEventId i w = (Ok r, w') /\ sameStore w w')
  /\ (forall m i, exists r w',
        isEmailRegisteredForEvent m i w = (Ok r, w') /\ sameStore w w')
  /\ (forall u, exists r w', getUserByUid u w = (Ok r, w') /\ sameStore w w')
  /\ (exists r w', getRegistrationsWithEvents w = (Ok r, w') /\ sameStore w w').
Proof.
  split; [apply getAllEvents_returns|].
  split; [intros; apply getEventById_returns|].
  split; [apply getAllRegistrations_returns|].
  split; [intros; apply getRegistrationById_returns|].
  split; [intros; apply getRegistrationsByEventId_returns|].
  split; [intros; apply isEmailRegisteredForEvent_returns|].
  split; [intros; apply getUserByUid_returns|].
  apply getRegistrationsWithEvents_returns.
Qed.

(** ** What the dispatcher writes *)

Lemma createEvent_frame title date venue w r w' :
  createEvent title date venue w = (r, w') ->
  registrations w' = registrations w /\ users w' = users w.
Proof.
  unfold createEvent, coll_add, doc_get, docRef, reportNotEnabled.
  destruct (storable (Event.Data title date venue 0)); unfold_monad; simpl.
  - case_request.
    + destruct (isNotFound _); simpl; intros [= <- <-]; done.
    + destruct (validId (autoId (replies w (calls w)))) eqn:Hv; simpl.
      * destruct (lookupDoc _ (events w)); simpl.
        -- intros [= <- <-]; done.
        -- rewrite Hv. simpl. unfold request. simpl.
           destruct (fault (replies w (S (calls w)))); simpl.
           ++ destruct (isNotFound _); simpl; intros [= <- <-]; done.
           ++ intros [= <- <-]; done.
      * intros [= <- <-]; done.
  - intros [= <- <-]; done.
Qed.

Lemma isSelectEventId_false u :
  isSelectEventById u = false -> includes u "SELECT ID FROM EVENTS WHERE ID = ?" = false.
Proof.
  intros H2. destruct (includes _ _) eqn:Ht; [|done].
  apply isSelectEventId_covered in Ht. congruence.
Qed.

(** The three ways a call of [query] can go: an insertion of an event, an
    insertion of a registration, or a call that returns and writes
    nothing. *)
Lemma query_effect sql params w :
  let u := normalize sql in
  exists r w',
    query sql params w = (r, w') /\ users w' = users w
    /\ ((isInsertEvent u = true /\ registrations w' = registrations w)
        \/ (isInsertEvent u = false /\ isInsertRegistration u = true
            /\ events w' = events w
            /\ exists r1 w1,
                 createRegistration (Js.nth params 0) (Js.nth params 1) (Js.nth params 2)
                                    (traced w) = (r1, w1)
                 /\ registrations w' = registrations w1)
        \/ (isInsertEvent u = false /\ sameStore w w' /\ exists v, r = Ok v)).
Proof.
  intros u. subst u.
  destruct (isInsertEvent (normalize sql)) eqn:H1.
  { unfold query, isInsertEvent in *. unfold_monad. simpl. rewrite H1.
    destruct (createEvent _ _ _ _) as [r w1] eqn:Hc.
    apply createEvent_frame in Hc as [Hr Hu]. simpl in Hr, Hu.
    destruct r as [[e|]|e]; simpl; do 2 eexists; (split; [reflexivity|]); simpl; auto. }
  destruct (isSelectEventById (normalize sql)) eqn:H2.
  { destruct (getEventById_returns (Js.nth params 0) (traced w)) as (r & w1 & Hrun & S).
    rewrite (query_select_event_by_id _ _ _ _ _ H1 H2 Hrun).
    do 2 eexists. split; [reflexivity|]. split; [apply S|]. right. right.
    split; [done|]. split; [exact S|]. eauto. }
  destruct (isSelectEvents (normalize sql)) eqn:H3.
  { destruct (getAllEvents_returns (say Log "✅ SELECT * FROM events matched!" (traced w)))
      as (r & w1 & Hrun & S).
    rewrite (query_select_events _ _ _ _ _ H1 H2 H3 Hrun).
    do 2 eexists. split; [reflexivity|]. split; [apply S|]. right. right.
    split; [done|]. split; [exact S|]. eauto. }
  destruct (isExistenceCheck (normalize sql)) eqn:H4.
  { destruct (isEmailRegisteredForEvent_returns (Js.nth params 0) (Js.nth params 1) (traced w))
      as (r & w1 & Hrun & S).
    rewrite (query_existence_check _ _ _ _ _ H1 H2 H3 H4 Hrun).
    do 2 eexists. split; [reflexivity|]. split; [apply S|]. right. right.
    split; [done|]. split; [exact S|]. eauto. }
  pose proof (isSelectEventId_false _ H2) as Hthird.
  destruct (isInsertRegistration (normalize sql)) eqn:H5.
  { unfold query, isInsertEvent, isSelectEventById, isSelectEvents, isExistenceCheck,
      isInsertRegistration in *.
    unfold_monad. simpl. rewrite H1, H2, Hthird, H3, H4, H5.
    change (say Log "🔍 Params:" (say Log "🔍 SQL Upper (normalized):"
              (say Log "🔍 DB Query called:" w))) with (traced w).
    destruct (createRegistration _ _ _ _) as [r w1] eqn:Hc.
    pose proof (createRegistration_frame _ _ _ _ _ _ Hc) as (He & Hu & _).
    simpl in He, Hu.
    destruct r as [[e|]|e]; simpl; do 2 eexists; (split; [reflexivity|]); simpl;
      (split; [done|]); right; left; eauto 10. }
  destruct (isJoin (normalize sql)) eqn:H6.
  { destruct (getRegistrationsWithEvents_returns (traced w)) as (r & w1 & Hrun & S).
    rewrite (query_join _ _ _ _ _ H1 H2 H3 H4 H5 H6 Hrun).
    do 2 eexists. split; [reflexivity|]. split; [apply S|]. right. right.
    split; [done|]. split; [exact S|]. eauto. }
  unfold query, isInsertEvent, isSelectEventById, isSelectEvents, isExistenceCheck,
    isInsertRegistration, isJoin in *.
  unfold_monad. simpl. rewrite H1, H2, Hthird, H3, H4, H5, H6. simpl.
  do 2 eexists. split; [reflexivity|]. split; [done|]. right. right.
  split; [done|]. split; [done|]. eauto.
Qed.

(** X3. Only an INSERT text makes the dispatcher write or raise.  Whatever
    the text and the parameters, the users stay as they are; the events
    change only when the text contains INSERT INTO EVENTS, the
    registrations only when it contains INSERT INTO REGISTRATIONS; and a
    text that contains neither gets a result, no error. *)
Theorem query_writes_only_by_insert (sql : string) (params : list value) (w : world) :
  let u := normalize sql in
  let w' := after (query sql params) w in
  users w' = users w
  /\ (isInsertEvent u = false -> events w' = events w)
  /\ (isInsertRegistration u = false -> registrations w' = registrations w)
  /\ (isInsertEvent u = false -> isInsertRegistration u = false ->
      exists r, run (query sql params) w = Ok r).
Proof.
  intros u w'. subst u w'. unfold after, run.
  destruct (query_effect sql params w) as (r & w' & -> & Hu & Hcases). cbn [fst snd].
  split; [done|].
  destruct Hcases as [[H1 Hr] | [(H1 & H5 & He & _) | (H1 & (He & Hr & _) & v & ->)]].
  - split; [congruence|]. split; [done | congruence].
  - split; [done|]. split; congruence.
  - split; [done|]. split; [done|]. eauto.
Qed.

Lemma query_writes_only_by_insert_witness :
  events (after (query "UPDATE events SET venue = ?" [VStr "Lab 3"]) fest) = events fest
  /\ registrations (after (query insertEventSql [VStr "Fest"; VStr "2025-12-10"; VStr "Ground"])
                          fest) = registrations fest
  /\ exists r, run (query "SELECT * FROM users" []) fest = Ok r.
Proof.
  split; [|split].
  - apply (query_writes_only_by_insert "UPDATE events SET venue = ?" [VStr "Lab 3"] fest).
    reflexivity.
  - apply (query_writes_only_by_insert insertEventSql
             [VStr "Fest"; VStr "2025-12-10"; VStr "Ground"] fest).
    reflexivity.
  - apply (query_writes_only_by_insert "SELECT * FROM users" [] fest); reflexivity.
Defined.

(** ** The event of an id *)

Lemma getEventById_invalid id w :
  validId (toString id) = false -> exists w', getEventById id w = (Ok None, w').
Proof.
  intros Hv. unfold getEventById, doc_get, docRef. unfold_monad. simpl. rewrite Hv. simpl.
  eauto.
Qed.

(** What [getEventById] returns is nothing or the document stored under the
    id, and it is that document when the id is valid and the store
    answers. *)
Lemma getEventById_document id w :
  let key := toString id in
  exists r w',
    getEventById id w = (Ok r, w') /\ sameStore w w'
    /\ (r = None \/ exists d, r = Some (Object key d) /\ lookupDoc key (events w) = Some d)
    /\ (validId key = true -> answers w 0 -> r = Object key <$> lookupDoc key (events w)).
Proof.
  intros key. subst key.
  destruct (validId (toString id)) eqn:Hv.
  - destruct (fault (replies w (calls w))) as [e|] eqn:Hf.
    + destruct (getEventById_failed id w e Hf) as (w' & Hrun & Hs).
      do 2 eexists. split; [exact Hrun|]. split; [done|]. split; [by left|].
      unfold answers. rewrite Nat.add_0_r. congruence.
    + assert (Ha : answers w 0) by (unfold answers; by rewrite Nat.add_0_r).
      rewrite (getEventById_found id w Hv Ha).
      do 2 eexists. split; [reflexivity|]. split; [done|]. split; [|done].
      destruct (lookupDoc _ _) as [d|]; [right; eauto | by left].
  - destruct (getEventById_returns id w) as (r & w' & Hrun & Hs).
    destruct (getEventById_invalid id w Hv) as (w2 & Hrun2).
    rewrite Hrun in Hrun2. injection Hrun2 as -> <-.
    do 2 eexists. split; [exact Hrun|]. split; [done|]. split; [by left | done].
Qed.

(** X4. A SELECT on the events with WHERE ID = ? never raises and writes
    nothing, whatever the select list and the parameters: the result is one
    array with at most one row, the document stored under the string of the
    first parameter, and that row is there whenever the id is a valid one,
    the store answers and the document exists. *)
Theorem query_event_by_id (sql : string) (params : list value) (w : world) :
  isInsertEvent (normalize sql) = false ->
  isSelectEventById (normalize sql) = true ->
  let key := toString (Js.nth params 0) in
  exists rows,
    run (query sql params) w = Ok [Rows rows]
    /\ sameStore w (after (query sql params) w)
    /\ (rows = []
        \/ exists d, rows = [EventRow (Object key d)] /\ lookupDoc key (events w) = Some d)
    /\ (validId key = true -> answers w 0 ->
        forall d, lookupDoc key (events w) = Some d -> rows = [EventRow (Object key d)]).
Proof.
  intros H1 H2 key. subst key.
  destruct (getEventById_document (Js.nth params 0) (traced w))
    as (r & w' & Hrun & Hs & Hdoc & Hfound).
  unfold run, after. rewrite (query_select_event_by_id _ _ _ _ _ H1 H2 Hrun). cbn [fst snd].
  eexists. split; [reflexivity|]. split; [exact Hs|]. split.
  - destruct Hdoc as [-> | (d & -> & Hd)]; [by left | right; eauto].
  - intros Hv Ha d Hd. rewrite Hfound; [|done|by apply answers_traced].
    cbn [events traced say]. by rewrite Hd.
Qed.

Lemma query_event_by_id_witness :
  exists rows,
    run (query "SELECT venue FROM events WHERE id = ?" [VNum 2]) fest = Ok [Rows rows]
    /\ rows = [EventRow (Object "2" (Event.Data (VStr "AI Workshop") (VStr "2025-12-05")
                                                (VStr "Lab 3") 0))].
Proof.
  destruct (query_event_by_id "SELECT venue FROM events WHERE id = ?" [VNum 2] fest
              eq_refl eq_refl) as (rows & Hrun & _ & _ & Hfound).
  exists rows. split; [exact Hrun|]. by apply Hfound.
Defined.

(** ** Registrations stay normalized *)

Lemma normalized_created n m event_id t :
  normalized (Registration.Data (VStr (trim n)) (VStr (toLowerCase (trim m)))
                                (VStr (toString event_id)) t).
Proof.
  exists (trim n), (toLowerCase (trim m)), (toString event_id). simpl.
  repeat split; [apply trim_idem | by rewrite trim_toLowerCase, trim_idem
                | apply toLowerCase_idem].
Qed.

Lemma createRegistration_allNormalized name email event_id w r w1 :
  createRegistration name email event_id w = (r, w1) ->
  allNormalized (registrations w) -> allNormalized (registrations w1).
Proof.
  intros Hrun Hw. apply createRegistration_frame in Hrun as (_ & _ & [-> | Hnew]); [done|].
  destruct Hnew as (n & m & i & t & _ & _ & ->).
  intros j d [[= -> ->]|Hin]%insertDoc_elem; [apply normalized_created | by eapply Hw].
Qed.

Lemma query_allNormalized sql params w :
  allNormalized (registrations w) ->
  allNormalized (registrations (after (query sql params) w)).
Proof.
  intros Hw. unfold after.
  destruct (query_effect sql params w) as (r & w' & -> & Hu & Hcases). cbn [snd].
  destruct Hcases as [[_ ->] | [(_ & _ & _ & r1 & w1 & Hc & ->) | (_ & (_ & -> & _) & _)]];
    try done.
  by eapply createRegistration_allNormalized.
Qed.

(** ** What [POST /register] writes *)

Lemma head_rows_nonNull {D} (f : object D -> row) (r : option (object D)) :
  noRows (head [Rows (f <$> nonNull r)]) = bool_decide (r = None).
Proof. by destruct r. Qed.

(** The handler answers with a redirect, leaves the events and the users as
    they are, and writes a registration only through [createRegistration],
    for strings that passed its tests and an event that exists. *)
Lemma postRegister_effect name email event_id w :
  exists url w',
    postRegister name email event_id w = (Ok (Redirect url), w')
    /\ events w' = events w /\ users w' = users w
    /\ (registrations w' = registrations w
        \/ exists n m ev w0 r1 w1,
             name = VStr n /\ email = VStr m
             /\ truthy name = true /\ truthy event_id = true
             /\ emailRegex_test email = true
             /\ lookupDoc (toString event_id) (events w) = Some ev
             /\ registrations w0 = registrations w
             /\ createRegistration (VStr (trim n)) (VStr (trim m)) event_id w0 = (r1, w1)
             /\ registrations w' = registrations w1).
Proof.
  unfold postRegister. unfold_monad.
  destruct (truthy name) eqn:Hn; cbn [negb orb]; [|by eauto 10].
  destruct (truthy email) eqn:Hm; cbn [negb orb]; [|by eauto 10].
  destruct (truthy event_id) eqn:He; cbn [negb orb]; [|by eauto 10].
  destruct (emailRegex_test email) eqn:Hre; cbn [negb]; [|by eauto 10].
  change "SELECT id FROM events WHERE id = ?" with selectEventIdSql.
  destruct (getEventById_document event_id (traced w))
    as (r & w1 & Hrun1 & (E1 & R1 & U1) & Hdoc & _).
  rewrite (query_selectEventIdSql [event_id] w r w1 Hrun1).
  rewrite head_rows_nonNull.
  destruct Hdoc as [-> | (ev & -> & Hev)]; cbn [bool_decide decide_rel];
    [rewrite bool_decide_eq_true_2 by done; by eauto 10|].
  rewrite bool_decide_eq_false_2 by done.
  change "SELECT id FROM registrations WHERE email = ? AND event_id = ?"
    with existenceCheckSql.
  destruct (isEmailRegisteredForEvent_returns email event_id (traced w1))
    as (b & w2 & Hrun2 & (E2 & R2 & U2)).
  rewrite (query_existenceCheckSql [email; event_id] w1 b w2 Hrun2).
  cbn [events registrations users traced say] in *.
  destruct b; cbn [head someRows].
  { do 2 eexists. split; [reflexivity|]. split; [congruence|]. split; [congruence|].
    left. congruence. }
  unfold call_trim.
  destruct name as [| | |n]; cbn -[query];
    try (do 2 eexists; split; [reflexivity|]; cbn [events registrations users say];
         split; [congruence|]; split; [congruence|]; left; congruence).
  destruct email as [| | |m]; cbn -[query];
    try (do 2 eexists; split; [reflexivity|]; cbn [events registrations users say];
         split; [congruence|]; split; [congruence|]; left; congruence).
  destruct (query_effect insertRegistrationSql [VStr (trim n); VStr (trim m); event_id] w2)
    as (r3 & w3 & Hrun3 & U3 & Hcases).
  change "INSERT INTO registrations (name, email, event_id) VALUES (?, ?, ?)"
    with insertRegistrationSql.
  rewrite Hrun3.
  destruct Hcases as [[H1 _] | [(_ & _ & E3 & r4 & w4 & Hc & R3) | (_ & (E3 & R3 & _) & _)]];
    [discriminate H1| |].
  - destruct r3 as [v|e]; cbn; do 2 eexists; (split; [reflexivity|]);
      cbn [events registrations users say];
      (split; [congruence|]); (split; [congruence|]); right;
      exists n, m, ev, (traced w2), r4, w4; repeat split; try done;
      cbn [events registrations users traced say]; congruence.
  - destruct r3 as [v|e]; cbn; do 2 eexists; (split; [reflexivity|]);
      cbn [events registrations users say];
      (split; [congruence|]); (split; [congruence|]); left; congruence.
Qed.

(** X5. The stored registrations stay normalized: when every stored
    registration has a trimmed name, a trimmed lower-case email and a
    string as event id, that is still so after [createRegistration], after
    any call of the dispatcher and after [POST /register], whatever their
    arguments and whatever the store answers. *)
Theorem registrations_stay_normalized (w : world) :
  allNormalized (registrations w) ->
  (forall name email event_id,
     allNormalized (registrations (after (createRegistration name email event_id) w)))
  /\ (forall sql params, allNormalized (registrations (after (query sql params) w)))
  /\ (forall name email event_id,
        allNormalized (registrations (after (postRegister name email event_id) w))).
Proof.
  intros Hw. split; [|split].
  - intros name email event_id. unfold after.
    destruct (createRegistration name email event_id w) as [r w1] eqn:Hrun.
    by eapply createRegistration_allNormalized.
  - intros sql params. by apply query_allNormalized.
  - intros name email event_id. unfold after.
    destruct (postRegister_effect name email event_id w)
      as (url & w' & -> & _ & _ & Hreg). cbn [snd].
    destruct Hreg as [-> | Hnew]; [done|].
    destruct Hnew as (n & m & ev & w0 & r1 & w1 & _ & _ & _ & _ & _ & _ & R0 & Hc & ->).
    eapply createRegistration_allNormalized; [exact Hc|]. by rewrite R0.
Qed.

Lemma registrations_stay_normalized_witness :
  allNormalized
    (registrations (after (query insertRegistrationSql
                             [VStr "  Ravi "; VStr " RAVI@muj.edu"; VNum 2]) fest)).
Proof.
  apply (registrations_stay_normalized fest).
  intros i d Hin. apply list_elem_of_In in Hin.
  destruct Hin as [Hin|[Hin|[Hin|[Hin|[]]]]]; injection Hin as <- <-;
    do 3 eexists; repeat split.
Defined.

(** X6. [POST /register] always answers with a redirect and never changes
    the events or the users.  It adds at most one registration, and only
    when the name and the email are strings, the email matches the
    pattern, and an event is stored under the string of [event_id] when it
    checks; what it adds is the registration with the trimmed name, the
    trimmed lower-case email and that string. *)
Theorem postRegister_writes_for_existing_event (name email event_id : value) (w : world) :
  let w' := after (postRegister name email event_id) w in
  (exists url, run (postRegister name email event_id) w = Ok (Redirect url))
  /\ events w' = events w /\ users w' = users w
  /\ (registrations w' = registrations w
      \/ exists n m i t,
           name = VStr n /\ email = VStr m /\ emailRegex_test email = true
           /\ is_Some (lookupDoc (toString event_id) (events w))
           /\ registrations w'
              = insertDoc i (Registration.Data (VStr (trim n)) (VStr (toLowerCase (trim m)))
                                               (VStr (toString event_id)) t)
                          (registrations w)).
Proof.
  intros w'. subst w'. unfold run, after.
  destruct (postRegister_effect name email event_id w)
    as (url & w' & -> & E & U & Hreg). cbn [fst snd].
  split; [eauto|]. split; [done|]. split; [done|].
  destruct Hreg as [-> | Hnew]; [by left|].
  destruct Hnew as (n & m & ev & w0 & r1 & w1 & -> & -> & _ & _ & Hre & Hev & R0 & Hc & ->).
  apply createRegistration_frame in Hc as (_ & _ & [-> | Hnew]); [left; done|].
  destruct Hnew as (n' & m' & i & t & [= <-] & [= <-] & ->).
  right. exists n, m, i, t. rewrite !trim_idem, R0. repeat split; eauto.
Qed.

(** ** A registration through the route, and the same once more *)

Lemma emailRegex_trimmed m : emailRegex_test (VStr m) = true -> trim m = m.
Proof.
  unfold emailRegex_test. cbn [toString]. intros Hre.
  destruct (decide (trim m = m)) as [|Hne]; [done|].
  apply trim_hasWhiteSpace, emailRegex_whiteSpace in Hne. congruence.
Qed.

Lemma emailRegex_truthy m : emailRegex_test (VStr m) = true -> truthy (VStr m) = true.
Proof. destruct m; [discriminate | done]. Qed.

Lemma postRegister_registers n m event_id w ev :
  truthy (VStr n) = true -> truthy event_id = true ->
  emailRegex_test (VStr m) = true ->
  validId (toString event_id) = true ->
  lookupDoc (toString event_id) (events w) = Some ev ->
  (forall i d, (i, d) ∈ registrations w -> registeredFor m event_id d = false) ->
  answersNext 4 w ->
  validId (autoId (replies w (S (S (calls w))))) = true ->
  lookupDoc (autoId (replies w (S (S (calls w))))) (registrations w) = None ->
  let r := replies w (S (S (calls w))) in
  let data := Registration.Data (VStr (trim n)) (VStr (toLowerCase m))
                                (VStr (toString event_id)) (serverTime r) in
  exists w',
    postRegister (VStr n) (VStr m) event_id w = (Ok registered, w')
    /\ registrations w' = insertDoc (autoId r) data (registrations w)
    /\ events w' = events w /\ users w' = users w
    /\ replies w' = replies w /\ calls w' = (calls w + 4)%nat.
Proof.
  intros Hn He Hre Hv Hev Hnone Ha Hid Hfresh r data. subst r data.
  pose proof (emailRegex_truthy m Hre) as Hm.
  pose proof (Ha 0%nat ltac:(lia)) as Ha0. pose proof (Ha 1%nat ltac:(lia)) as Ha1.
  unfold postRegister. unfold_monad. rewrite Hn, Hm, He, Hre. cbn [negb orb].
  change "SELECT id FROM events WHERE id = ?" with selectEventIdSql.
  erewrite query_selectEventIdSql;
    [|cbn [Js.nth]; simpl; apply getEventById_found; [done | by apply answers_traced]].
  change (Js.nth [event_id] 0) with event_id. change (events (traced w)) with (events w).
  rewrite Hev. cbn -[query].
  change "SELECT id FROM registrations WHERE email = ? AND event_id = ?"
    with existenceCheckSql.
  erewrite query_existenceCheckSql.
  2:{ cbn [Js.nth]. simpl. apply isEmailRegisteredForEvent_answered.
      apply answers_traced. apply answers_tick. by apply answers_traced. }
  cbn [registrations traced say tick].
  rewrite (existsb_registeredFor m event_id) by done.
  cbn -[query].
  change "INSERT INTO registrations (name, email, event_id) VALUES (?, ?, ?)"
    with insertRegistrationSql.
  set (w2 := tick (traced (tick (traced w)))).
  destruct (createRegistration_created (trim n) (trim m) event_id (traced w2))
    as (w3 & Hrun & Hreg & Hevs & Hus & Hrep & Hcalls).
  { intros k Hk. apply answers_traced. unfold w2. apply answers_tick, answers_traced.
    apply answers_tick, answers_traced. unfold answers.
    replace (calls w + S (S k))%nat with (calls w + (2 + k))%nat by lia.
    apply (Ha (2 + k)%nat). lia. }
  { exact Hid. }
  { exact Hfresh. }
  erewrite query_insert_registration; [|done..|exact Hrun].
  cbn -[query]. eexists. split; [reflexivity|].
  rewrite Hreg, Hevs, Hus, Hrep, Hcalls. cbn.
  rewrite trim_idem, (emailRegex_trimmed m Hre), (emailRegex_trimmed m Hre).
  repeat split; try done. lia.
Qed.

(** X7. A registration through [POST /register], and the same request once
    more.  For a name and an event id that are not empty, an email that
    matches the pattern, an event that exists, no registration of that
    email for it yet, and a store that answers and generates a fresh id:
    the handler answers with the success redirect and has stored exactly
    one registration, with the trimmed name, the lower-case email and the
    event id; and the same request after it, with the email in any letter
    case, is answered with the already-registered redirect and stores
    nothing. *)
Theorem postRegister_then_duplicate (n m m' : string) (event_id : value) (w : world)
    (ev : Event.data) :
  truthy (VStr n) = true -> truthy event_id = true ->
  emailRegex_test (VStr m) = true ->
  validId (toString event_id) = true ->
  lookupDoc (toString event_id) (events w) = Some ev ->
  (forall i d, (i, d) ∈ registrations w -> registeredFor m event_id d = false) ->
  answersNext 6 w ->
  validId (autoId (replies w (S (S (calls w))))) = true ->
  lookupDoc (autoId (replies w (S (S (calls w))))) (registrations w) = None ->
  emailRegex_test (VStr m') = true -> toLowerCase m' = toLowerCase m ->
  let w1 := after (postRegister (VStr n) (VStr m) event_id) w in
  let w2 := after (postRegister (VStr n) (VStr m') event_id) w1 in
  run (postRegister (VStr n) (VStr m) event_id) w = Ok registered
  /\ (exists i t,
        registrations w1
        = insertDoc i (Registration.Data (VStr (trim n)) (VStr (toLowerCase m))
                                         (VStr (toString event_id)) t)
                    (registrations w))
  /\ run (postRegister (VStr n) (VStr m') event_id) w1 = Ok (alreadyRegistered event_id)
  /\ sameStore w1 w2.
Proof.
  intros Hn He Hre Hv Hev Hnone Ha Hid Hfresh Hre' Hcase w1 w2. subst w1 w2.
  destruct (postRegister_registers n m event_id w ev Hn He Hre Hv Hev Hnone
              (answersNext_le 6 4 w ltac:(lia) Ha) Hid Hfresh)
    as (w1 & Hrun & Hreg & Hevs & Hus & Hrep & Hcalls).
  unfold run, after. rewrite Hrun. cbn [fst snd].
  split; [done|]. split; [eauto|].
  destruct (postRegister_duplicate (VStr n) m' event_id w1 ev
              (autoId (replies w (S (S (calls w)))))
              (Registration.Data (VStr (trim n)) (VStr (toLowerCase m))
                                 (VStr (toString event_id))
                                 (serverTime (replies w (S (S (calls w)))))))
    as (w2 & Hrun2 & Hsame); try done.
  - by apply emailRegex_truthy.
  - by rewrite Hevs.
  - rewrite Hreg. apply insertDoc_elem. by left.
  - unfold registeredFor. cbn. rewrite Hcase. by rewrite !bool_decide_eq_true_2.
  - intros k Hk. unfold answers. rewrite Hrep, Hcalls.
    replace (calls w + 4 + k)%nat with (calls w + (4 + k))%nat by lia.
    apply (Ha (4 + k)%nat). lia.
  - rewrite Hrun2. by cbn.
Qed.

Lemma postRegister_then_duplicate_witness :
  run (postRegister (VStr " Asha ") (VStr "Asha@MUJ.edu") (VStr "e1")) campus = Ok registered
  /\ run (postRegister (VStr " Asha ") (VStr "ASHA@muj.EDU") (VStr "e1"))
         (after (postRegister (VStr " Asha ") (VStr "Asha@MUJ.edu") (VStr "e1")) campus)
     = Ok (alreadyRegistered (VStr "e1")).
Proof.
  destruct (postRegister_then_duplicate " Asha " "Asha@MUJ.edu" "ASHA@muj.EDU" (VStr "e1")
              campus (Event.Data (VStr "Tech Innovators Summit") (VStr "2025-12-01")
                                 (VStr "Auditorium A") 0))
    as (Hfirst & _ & Hsecond & _); try reflexivity.
  - intros i d Hin. inversion Hin.
  - intros k _. reflexivity.
  - split; [exact Hfirst | exact Hsecond].
Defined.

(** ** An INSERT with a parameter missing *)

Lemma createEvent_undefined title date venue w :
  storable (Event.Data title date venue 0) = false ->
  exists e w',
    createEvent title date venue w = (Throw e, w')
    /\ calls w' = calls w /\ sameStore w w'.
Proof.
  intros Hs. unfold createEvent, coll_add. rewrite Hs. unfold_monad. simpl.
  do 2 eexists. split; [reflexivity|]. done.
Qed.

Lemma createRegistration_not_string name email event_id w :
  (forall s, name <> VStr s) \/ (forall s, email <> VStr s) ->
  exists e w',
    createRegistration name email event_id w = (Throw e, w')
    /\ calls w' = calls w /\ sameStore w w'.
Proof.
  intros Hno. unfold createRegistration, call_trim.
  destruct name as [| | |n]; unfold_monad; simpl;
    try (do 2 eexists; split; [reflexivity|]; done).
  destruct email as [| | |m]; simpl;
    try (do 2 eexists; split; [reflexivity|]; done).
  destruct Hno as [Hno|Hno]; [destruct (Hno n) | destruct (Hno m)]; done.
Qed.

(** X8. An INSERT sent to the dispatcher with a parameter missing.  When one
    of the three parameters of an INSERT INTO EVENTS is [undefined], and
    when the name or the email of an INSERT INTO REGISTRATIONS is no
    string, the call raises, no request goes to the store and nothing is
    stored.  A missing third parameter of an INSERT INTO REGISTRATIONS is
    no error: the registration is stored with the text undefined as its
    event id. *)
Theorem query_insert_missing_parameter (sql : string) (params : list value) (w : world) :
  let u := normalize sql in
  let w' := after (query sql params) w in
  (isInsertEvent u = true ->
   Js.nth params 0 = VUndefined \/ Js.nth params 1 = VUndefined
   \/ Js.nth params 2 = VUndefined ->
   (exists e, run (query sql params) w = Throw e)
   /\ calls w' = calls w /\ sameStore w w')
  /\ (isInsertEvent u = false -> isSelectEventById u = false -> isSelectEvents u = false ->
      isExistenceCheck u = false -> isInsertRegistration u = true ->
      ((forall s, Js.nth params 0 <> VStr s) \/ (forall s, Js.nth params 1 <> VStr s) ->
       (exists e, run (query sql params) w = Throw e)
       /\ calls w' = calls w /\ sameStore w w')
      /\ (forall n m,
            params = [VStr n; VStr m] ->
            answersNext 2 w ->
            validId (autoId (replies w (calls w))) = true ->
            lookupDoc (autoId (replies w (calls w))) (registrations w) = None ->
            exists i t,
              run (query sql params) w = Ok [Rec (InsertId i)]
              /\ registrations w'
                 = insertDoc i (Registration.Data (VStr (trim n)) (VStr (toLowerCase (trim m)))
                                                  (VStr "undefined") t)
                             (registrations w))).
Proof.
  intros u w'. subst u w'. unfold run, after. split.
  - intros H1 Hundef.
    destruct (createEvent_undefined (Js.nth params 0) (Js.nth params 1) (Js.nth params 2)
                (say Log "✅ INSERT INTO events matched!" (traced w)))
      as (e & w1 & Hrun & Hcalls & Hsame).
    { unfold storable, event_document. cbn [Event.title Event.date Event.venue].
      destruct Hundef as [-> | [-> | ->]]; cbn; rewrite ?andb_false_r; done. }
    unfold query, isInsertEvent in *. unfold_monad. cbn -[createEvent]. rewrite H1.
    unfold traced in Hrun. rewrite Hrun. cbn. split; [eauto|]. split; [exact Hcalls|].
    exact Hsame.
  - intros H1 H2 H3 H4 H5. pose proof (isSelectEventId_false _ H2) as Hthird. split.
    + intros Hno.
      destruct (createRegistration_not_string (Js.nth params 0) (Js.nth params 1)
                  (Js.nth params 2) (traced w) Hno) as (e & w1 & Hrun & Hcalls & Hsame).
      unfold query, isInsertEvent, isSelectEventById, isSelectEvents, isExistenceCheck,
        isInsertRegistration in *.
      unfold_monad. cbn -[createRegistration]. rewrite H1, H2, Hthird, H3, H4, H5.
      unfold traced in Hrun. rewrite Hrun. cbn. split; [eauto|]. split; [exact Hcalls|].
      exact Hsame.
    + intros n m -> Ha Hv Hfresh.
      destruct (createRegistration_created n m VUndefined (traced w) Ha Hv Hfresh)
        as (w1 & Hrun & Hreg & _).
      erewrite query_insert_registration; [|done..|exact Hrun].
      cbn [fst snd id]. do 2 eexists. split; [reflexivity|]. exact Hreg.
Qed.

Lemma query_insert_missing_parameter_witness :
  (exists e, run (query insertEventSql [VStr "Fest"; VStr "2025-12-10"]) fest = Throw e)
  /\ (exists e, run (query insertRegistrationSql []) fest = Throw e)
  /\ exists i t,
       registrations (after (query insertRegistrationSql [VStr "Asha"; VStr "asha@muj.edu"])
                            (emptyWorld healthy))
       = insertDoc i (Registration.Data (VStr "Asha") (VStr "asha@muj.edu")
                                        (VStr "undefined") t) [].
Proof.
  split; [|split].
  - destruct (query_insert_missing_parameter insertEventSql
                [VStr "Fest"; VStr "2025-12-10"] fest) as [Hevent _].
    apply Hevent; [reflexivity | by right; right].
  - destruct (query_insert_missing_parameter insertRegistrationSql [] fest)
      as [_ Hreg].
    destruct Hreg as [Hno _]; try reflexivity. apply Hno. by left.
  - destruct (query_insert_missing_parameter insertRegistrationSql
                [VStr "Asha"; VStr "asha@muj.edu"] (emptyWorld healthy)) as [_ Hreg].
    destruct Hreg as [_ Hthird]; try reflexivity.
    destruct (Hthird "Asha" "asha@muj.edu") as (i & t & _ & Hstored); try reflexivity.
    + intros k _. reflexivity.
    + exists i, t. exact Hstored.
Defined.

(** ** The pages *)

Lemma query_selectEventSql params w r w' :
  getEventById (Js.nth params 0) (traced w) = (Ok r, w') ->
  query selectEventSql params w = (Ok [Rows (EventRow <$> nonNull r)], w').
Proof. by apply query_select_event_by_id. Qed.

Lemma query_listEventsSql params w events w' :
  getAllEvents (say Log "✅ SELECT * FROM events matched!" (traced w)) = (Ok events, w') ->
  query listEventsSql params w = (Ok [Rows (EventRow <$> events)], say Log "Fetched events:" w').
Proof. by apply query_select_events. Qed.

Lemma getHome_listing message messageType w events w1 :
  getAllEvents (say Log "✅ SELECT * FROM events matched!" (traced w)) = (Ok events, w1) ->
  exists w2,
    getHome message messageType w
    = (Ok (Render 200 "index" (Events "MUJ Events" (EventRow <$> events)
                                 (Js.or message VNull) (Js.or messageType VNull))), w2)
    /\ sameStore w1 w2.
Proof.
  intros Hrun. unfold getHome. unfold_monad.
  change "SELECT * FROM events ORDER BY date ASC" with listEventsSql.
  rewrite (query_listEventsSql [] w events w1 Hrun). cbn [head arrayOf].
  destruct (0 <? _); eexists; (split; [reflexivity | done]).
Qed.

Lemma getAdminEvents_listing message messageType w events w1 :
  getAllEvents (say Log "✅ SELECT * FROM events matched!" (traced w)) = (Ok events, w1) ->
  exists w2,
    getAdminEvents message messageType w
    = (Ok (Render 200 "admin-events" (Events "Admin - Manage Events" (EventRow <$> events)
                                        (Js.or message VNull) (Js.or messageType VNull))), w2)
    /\ sameStore w1 w2.
Proof.
  intros Hrun. unfold getAdminEvents. unfold_monad.
  change "SELECT * FROM events ORDER BY date ASC" with listEventsSql.
  rewrite (query_listEventsSql [] w events w1 Hrun). cbn [head arrayOf].
  destruct (0 <? _); eexists; (split; [reflexivity | done]).
Qed.

Lemma getAdmin_rows message messageType w rows w1 :
  getRegistrationsWithEvents (traced w) = (Ok rows, w1) ->
  getAdmin message messageType w
  = (Ok (Render 200 "admin" (Registrations "Admin Panel - All Registrations"
                               (Rows (JoinedRow <$> rows))
                               (Js.or message VNull) (Js.or messageType VNull))), w1).
Proof.
  intros Hrun. unfold getAdmin. unfold_monad.
  by rewrite (query_adminQuery [] w rows w1 Hrun).
Qed.

(** The two pages of one event, by what [getEventById] returned *)
Lemma getRegister_event eventId message messageType w r w1 :
  truthy eventId = true ->
  getEventById eventId (traced w) = (Ok r, w1) ->
  getRegister eventId message messageType w
  = (Ok (match r with
         | Some e => Render 200 "register"
                       (EventForm ("Register for " +:+ toString (Event.title (fields e)))
                                  (EventRow e) (Js.or message VNull) (Js.or messageType VNull))
         | None => eventNotFound
         end), w1).
Proof.
  intros Ht Hrun. unfold getRegister. unfold_monad. rewrite Ht. cbn [negb].
  change "SELECT * FROM events WHERE id = ?" with selectEventSql.
  rewrite (query_selectEventSql [eventId] w r w1 Hrun). by destruct r.
Qed.

Lemma getEvent_event eventId message messageType w r w1 regs w2 :
  truthy eventId = true ->
  getEventById eventId (traced w) = (Ok r, w1) ->
  getRegistrationsByEventId eventId w1 = (Ok regs, w2) ->
  getEvent eventId message messageType w
  = match r with
    | Some e => (Ok (Render 200 "event-details"
                       (Details (Event.title (fields e)) (EventRow e) regs
                                (Js.or message VNull) (Js.or messageType VNull))), w2)
    | None => (Ok eventNotFound, w1)
    end.
Proof.
  intros Ht Hrun Hregs. unfold getEvent. unfold_monad. rewrite Ht. cbn [negb].
  change "SELECT * FROM events WHERE id = ?" with selectEventSql.
  rewrite (query_selectEventSql [eventId] w r w1 Hrun).
  destruct r; [|done]. cbn. by rewrite Hregs.
Qed.

Lemma sameStore_trans w1 w2 w3 : sameStore w1 w2 -> sameStore w2 w3 -> sameStore w1 w3.
Proof. unfold sameStore. intuition congruence. Qed.

(** X9. No page answers with a server error.  The handlers of [GET /],
    [GET /event/:eventId], [GET /register/:eventId], [GET /admin] and
    [GET /admin/events] answer in every world, for every parameter and
    whatever the store does, with a redirect or a page of status 200: the
    [catch] block of none of them is reached; and none changes a
    collection. *)
Theorem pages_never_fail (eventId message messageType : value) (w : world) :
  serves (getHome message messageType) w
  /\ serves (getEvent eventId message messageType) w
  /\ serves (getRegister eventId message messageType) w
  /\ serves (getAdmin message messageType) w
  /\ serves (getAdminEvents message messageType) w.
Proof.
  unfold serves.
  destruct (getAllEvents_returns (say Log "✅ SELECT * FROM events matched!" (traced w)))
    as (evs & w1 & Hall & Sall).
  destruct (getEventById_returns eventId (traced w)) as (r & w2 & Hev & Sev).
  destruct (getRegistrationsByEventId_returns eventId w2) as (regs & w3 & Hregs & Sregs).
  destruct (getRegistrationsWithEvents_returns (traced w)) as (rows & w4 & Hjoin & Sjoin).
  split; [|split; [|split; [|split]]].
  - destruct (getHome_listing message messageType w evs w1 Hall) as (w' & -> & S).
    do 2 eexists. split; [reflexivity|]. split; [done|].
    eapply sameStore_trans; [exact Sall | exact S].
  - destruct (truthy eventId) eqn:Ht.
    + rewrite (getEvent_event _ message messageType _ _ _ _ _ Ht Hev Hregs).
      destruct r; do 2 eexists; (split; [reflexivity|]); (split; [done|]); [|exact Sev].
      eapply sameStore_trans; [exact Sev | exact Sregs].
    + unfold getEvent. unfold_monad. rewrite Ht. cbn. do 2 eexists. done.
  - destruct (truthy eventId) eqn:Ht.
    + rewrite (getRegister_event _ message messageType _ _ _ Ht Hev).
      destruct r; do 2 eexists; (split; [reflexivity|]); (split; [done|]); exact Sev.
    + unfold getRegister. unfold_monad. rewrite Ht. cbn. do 2 eexists. done.
  - rewrite (getAdmin_rows message messageType w rows w4 Hjoin).
    do 2 eexists. split; [reflexivity|]. split; [done | exact Sjoin].
  - destruct (getAdminEvents_listing message messageType w evs w1 Hall) as (w' & -> & S).
    do 2 eexists. split; [reflexivity|]. split; [done|].
    eapply sameStore_trans; [exact Sall | exact S].
Qed.

(** ** The order of the listing *)

Lemma ascii_compare_Lt_trans a b c :
  Ascii.compare a b = Lt -> Ascii.compare b c = Lt -> Ascii.compare a c = Lt.
Proof. unfold Ascii.compare. rewrite !N.compare_lt_iff. lia. Qed.

Lemma string_compare_Lt_trans s t u :
  String.compare s t = Lt -> String.compare t u = Lt -> String.compare s u = Lt.
Proof.
  revert t u. induction s as [|a s IH]; intros [|b t] [|c u]; simpl; try done.
  destruct (Ascii.compare a b) eqn:Hab; try done.
  - apply Ascii.compare_eq_iff in Hab as ->.
    destruct (Ascii.compare b c); try done. apply IH.
  - destruct (Ascii.compare b c) eqn:Hbc; try done.
    + apply Ascii.compare_eq_iff in Hbc as <-. by rewrite Hab.
    + by rewrite (ascii_compare_Lt_trans a b c).
Qed.

Lemma string_leb_trans s t u :
  String.leb s t = true -> String.leb t u = true -> String.leb s u = true.
Proof.
  unfold String.leb.
  destruct (String.compare s t) eqn:Hst; [|
    destruct (String.compare t u) eqn:Htu; [| |done] | done].
  - apply String.compare_eq_iff in Hst as ->. done.
  - apply String.compare_eq_iff in Htu as <-. by rewrite Hst.
  - by rewrite (string_compare_Lt_trans s t u).
Qed.

Lemma valueLeb_total a b : valueLeb a b = false -> valueLeb b a = true.
Proof.
  destruct a as [| |m|s], b as [| |n|t]; simpl; try done.
  - intros H%Z.leb_gt. apply Z.leb_le. lia.
  - intros H. destruct (String.leb_total s t) as [H'|H']; congruence.
Qed.

Lemma valueLeb_trans a b c : valueLeb a b = true -> valueLeb b c = true -> valueLeb a c = true.
Proof.
  destruct a as [| |m|s], b as [| |n|t], c as [| |k|u]; simpl; try done.
  - intros H1%Z.leb_le H2%Z.leb_le. apply Z.leb_le. lia.
  - apply string_leb_trans.
Qed.

Lemma byDate_trans : Transitive byDate.
Proof. intros a b c. apply valueLeb_trans. Qed.

Lemma Sorted_fmap {A B} (f : A -> B) (R : A -> A -> Prop) (S : B -> B -> Prop) l :
  (forall x y, R x y -> S (f x) (f y)) -> Sorted R l -> Sorted S (f <$> l).
Proof.
  intros HRS Hs. induction Hs as [|x l Hs IH Hhd]; simpl; [constructor|].
  constructor; [exact IH|]. destruct Hhd; simpl; constructor. by apply HRS.
Qed.

(** The listing is the dated events, each once, by ascending date. *)
Lemma listedEvents_sorted l :
  Permutation (listedEvents l) (datedEvents l) /\ StronglySorted byDate (listedEvents l).
Proof.
  unfold listedEvents, datedEvents. split.
  - apply fmap_Permutation, sortStable_Permutation.
  - apply Sorted_StronglySorted; [exact byDate_trans|].
    eapply Sorted_fmap; [|apply sortStable_Sorted].
    + intros x y. unfold inOrder, byDate. simpl. by intros ->%negb_false_iff.
    + intros x y. rewrite negb_true_iff, negb_false_iff. apply valueLeb_total.
Qed.

(** X10. The listing of the events.  When the store answers, [GET /] and
    [GET /admin/events] show the same rows, and so does every text that
    the dispatcher takes for the listing, whatever order the text asks
    for: the stored events that have a date, each once, by ascending date.
    An event without a date is not shown. *)
Theorem events_listing (message messageType : value) (w : world) :
  answers w 0 ->
  let shown := listedEvents (events w) in
  run (getHome message messageType) w
  = Ok (Render 200 "index" (Events "MUJ Events" (EventRow <$> shown)
                              (Js.or message VNull) (Js.or messageType VNull)))
  /\ run (getAdminEvents message messageType) w
     = Ok (Render 200 "admin-events" (Events "Admin - Manage Events" (EventRow <$> shown)
                                        (Js.or message VNull) (Js.or messageType VNull)))
  /\ (forall sql params,
        isInsertEvent (normalize sql) = false ->
        isSelectEventById (normalize sql) = false ->
        isSelectEvents (normalize sql) = true ->
        run (query sql params) w = Ok [Rows (EventRow <$> shown)])
  /\ Permutation shown (datedEvents (events w))
  /\ StronglySorted byDate shown.
Proof.
  intros Ha shown. subst shown.
  destruct (getAllEvents_answered (say Log "✅ SELECT * FROM events matched!" (traced w)))
    as (w1 & Hall & _); [done|].
  cbn [events traced say] in Hall. unfold run.
  split; [|split; [|split]].
  - by destruct (getHome_listing message messageType w _ w1 Hall) as (w' & -> & _).
  - by destruct (getAdminEvents_listing message messageType w _ w1 Hall) as (w' & -> & _).
  - intros sql params H1 H2 H3. by rewrite (query_select_events _ _ _ _ _ H1 H2 H3 Hall).
  - apply listedEvents_sorted.
Qed.

Lemma events_listing_witness :
  run (query "SELECT title FROM events ORDER BY title DESC LIMIT 1" []) fest
  = Ok [Rows (EventRow <$> listedEvents (events fest))]
  /\ id <$> listedEvents (events fest) = ["1"; "2"].
Proof.
  destruct (events_listing VUndefined VUndefined fest eq_refl) as (_ & _ & Hquery & _).
  split; [|reflexivity].
  apply (Hquery "SELECT title FROM events ORDER BY title DESC LIMIT 1" []); reflexivity.
Defined.

(** ** The pages when the store fails *)

Lemma getRegistrationsWithEvents_failed w e :
  failsWith e w -> exists w', getRegistrationsWithEvents w = (Ok [], w').
Proof.
  intros Hf. unfold getRegistrationsWithEvents.
  destruct (getAllRegistrations_failed w e Hf) as (w1 & H1 & _).
  destruct (getAllEvents_returns w1) as (evs & w2 & H2 & _).
  unfold_monad. rewrite H1, H2. eauto.
Qed.

(** X11. A store that fails is shown as a store that is empty.  When the
    request to the store fails, with any error, [GET /] and
    [GET /admin/events] show no event, [GET /admin] shows no registration,
    and [GET /event/:eventId] and [GET /register/:eventId] answer that the
    event was not found. *)
Theorem pages_of_a_failing_store (e : exn) (eventId message messageType : value)
    (w : world) :
  failsWith e w ->
  run (getHome message messageType) w
  = Ok (Render 200 "index" (Events "MUJ Events" []
                              (Js.or message VNull) (Js.or messageType VNull)))
  /\ run (getAdminEvents message messageType) w
     = Ok (Render 200 "admin-events" (Events "Admin - Manage Events" []
                                        (Js.or message VNull) (Js.or messageType VNull)))
  /\ run (getAdmin message messageType) w
     = Ok (Render 200 "admin" (Registrations "Admin Panel - All Registrations" (Rows [])
                                 (Js.or message VNull) (Js.or messageType VNull)))
  /\ (truthy eventId = true ->
      run (getEvent eventId message messageType) w = Ok eventNotFound
      /\ run (getRegister eventId message messageType) w = Ok eventNotFound).
Proof.
  intros Hf. unfold run.
  destruct (getAllEvents_failed (say Log "✅ SELECT * FROM events matched!" (traced w)) e Hf)
    as (w1 & Hall & _).
  destruct (getRegistrationsWithEvents_failed (traced w) e Hf) as (w2 & Hjoin).
  destruct (getEventById_failed eventId (traced w) e Hf) as (w3 & Hev & _).
  destruct (getRegistrationsByEventId_returns eventId w3) as (regs & w4 & Hregs & _).
  split; [|split; [|split]].
  - by destruct (getHome_listing message messageType w _ w1 Hall) as (w' & -> & _).
  - by destruct (getAdminEvents_listing message messageType w _ w1 Hall) as (w' & -> & _).
  - by rewrite (getAdmin_rows message messageType w _ w2 Hjoin).
  - intros Ht. split.
    + by rewrite (getEvent_event _ message messageType _ _ _ _ _ Ht Hev Hregs).
    + by rewrite (getRegister_event _ message messageType _ _ _ Ht Hev).
Qed.

Lemma pages_of_a_failing_store_witness :
  run (getHome VUndefined VUndefined)
      (World (events fest) (registrations fest) [] (failing unavailable) 0 [])
  = Ok (Render 200 "index" (Events "MUJ Events" [] VNull VNull))
  /\ run (getEvent (VStr "1") VUndefined VUndefined)
         (World (events fest) (registrations fest) [] (failing unavailable) 0 [])
     = Ok eventNotFound.
Proof.
  destruct (pages_of_a_failing_store unavailable (VStr "1") VUndefined VUndefined
              (World (events fest) (registrations fest) [] (failing unavailable) 0 [])
              eq_refl) as (Hhome & _ & _ & Hevent).
  split; [exact Hhome|]. by apply Hevent.
Defined.

(** X12. The pages of one event.  For an id that is not empty and is a valid
    document id, and a store that answers: when no event is stored under
    the id, both [GET /event/:eventId] and [GET /register/:eventId] answer
    that the event was not found; when one is, the first shows that event
    with exactly the stored registrations whose event id is the id, in the
    order of the store, and the second shows the form for that event. *)
Theorem event_pages (eventId message messageType : value) (w : world) :
  truthy eventId = true ->
  validId (toString eventId) = true ->
  answersNext 2 w ->
  let key := toString eventId in
  (lookupDoc key (events w) = None ->
   run (getEvent eventId message messageType) w = Ok eventNotFound
   /\ run (getRegister eventId message messageType) w = Ok eventNotFound)
  /\ (forall d,
        lookupDoc key (events w) = Some d ->
        run (getEvent eventId message messageType) w
        = Ok (Render 200 "event-details"
                (Details (Event.title d) (EventRow (Object key d))
                   (registrationObjects
                      (List.filter
                         (fun p => bool_decide (Registration.event_id (snd p) = VStr key))
                         (registrations w)))
                   (Js.or message VNull) (Js.or messageType VNull)))
        /\ run (getRegister eventId message messageType) w
           = Ok (Render 200 "register"
                   (EventForm ("Register for " +:+ toString (Event.title d))
                              (EventRow (Object key d))
                              (Js.or message VNull) (Js.or messageType VNull)))).
Proof.
  intros Ht Hv Ha key. subst key. unfold run.
  pose proof (getEventById_found eventId (traced w) Hv
                (proj2 (answers_traced w 0) (Ha 0%nat ltac:(lia)))) as Hev.
  cbn [events traced say] in Hev.
  pose proof (getRegistrationsByEventId_answered eventId (tick (traced w))) as Hregs.
  cbn [registrations traced say tick] in Hregs.
  split.
  - intros Hnone. rewrite Hnone in Hev. split.
    + erewrite getEvent_event; [|done|exact Hev|apply Hregs]; [done|].
      apply answers_tick, answers_traced, Ha. lia.
    + by erewrite getRegister_event; [|done|exact Hev].
  - intros d Hd. rewrite Hd in Hev. split.
    + erewrite getEvent_event; [|done|exact Hev|apply Hregs]; [done|].
      apply answers_tick, answers_traced, Ha. lia.
    + by erewrite getRegister_event; [|done|exact Hev].
Qed.

Lemma event_pages_witness :
  exists regs,
    run (getEvent (VStr "1") VUndefined (VStr "info")) fest
    = Ok (Render 200 "event-details"
            (Details (VStr "Tech Innovators Summit")
                     (EventRow (Object "1" (Event.Data (VStr "Tech Innovators Summit")
                                                       (VStr "2025-12-01")
                                                       (VStr "Auditorium A") 0)))
                     regs VNull (VStr "info")))
    /\ id <$> regs = ["3"; "9"].
Proof.
  destruct (event_pages (VStr "1") VUndefined (VStr "info") fest eq_refl eq_refl)
    as [_ Hfound].
  - intros k _. reflexivity.
  - destruct (Hfound (Event.Data (VStr "Tech Innovators Summit") (VStr "2025-12-01")
                                 (VStr "Auditorium A") 0) eq_refl) as [Hevent _].
    eexists. split; [exact Hevent | reflexivity].
Defined.

(** ** [POST /admin/events] *)

Lemma truthy_defined v : truthy v = true -> defined v = true.
Proof. by destruct v. Qed.

Lemma query_insertEventSql params w event w' :
  createEvent (Js.nth params 0) (Js.nth params 1) (Js.nth params 2)
    (say Log "✅ INSERT INTO events matched!" (traced w)) = (Ok (Some event), w') ->
  query insertEventSql params w
  = (Ok [Rec (InsertId (id event))], say Log "✅ Created event successfully:" w').
Proof. by apply query_insert_event. Qed.

Lemma query_insert_event_raised sql params w e w' :
  isInsertEvent (normalize sql) = true ->
  createEvent (Js.nth params 0) (Js.nth params 1) (Js.nth params 2)
    (say Log "✅ INSERT INTO events matched!" (traced w)) = (Throw e, w') ->
  query sql params w
  = (Throw e, say Err "❌ Error stack:" (say Err "❌ Database query error:" w')).
Proof.
  unfold isInsertEvent, query. intros -> Hrun. unfold_monad. simpl.
  unfold traced in Hrun. by rewrite Hrun.
Qed.

Lemma query_insertEventSql_raised params w e w' :
  createEvent (Js.nth params 0) (Js.nth params 1) (Js.nth params 2)
    (say Log "✅ INSERT INTO events matched!" (traced w)) = (Throw e, w') ->
  query insertEventSql params w
  = (Throw e, say Err "❌ Error stack:" (say Err "❌ Database query error:" w')).
Proof. by apply query_insert_event_raised. Qed.

Lemma createEvent_failed_store title date venue w e :
  storable (Event.Data title date venue 0) = true -> failsWith e w ->
  exists w',
    createEvent title date venue w = (Throw (if isNotFound e then notEnabled else e), w')
    /\ sameStore w w'.
Proof.
  intros Hs Hf. unfold createEvent, coll_add, reportNotEnabled. rewrite Hs.
  unfold_monad. simpl.
  assert (Hf' : failsWith e (say Log "📝 Creating new event in Firestore:" w)) by exact Hf.
  rewrite (request_failed _ _ Hf'). destruct (isNotFound e); simpl; eexists; done.
Qed.

(** X13. An event through [POST /admin/events].  For a title and a venue
    that are strings and not empty, a date that is not empty, and a store
    that answers and generates a fresh id, the handler answers with the
    success redirect and has stored exactly one event: the title and the
    venue trimmed, the date as it came.  The test for an empty field comes
    before the trimming, so a title of white space only is stored as the
    empty title.  The registrations and the users stay as they are, and
    the event is in the listing afterwards. *)
Theorem postAdminEvents_creates (t v : string) (date : value) (w : world) :
  truthy (VStr t) = true -> truthy date = true -> truthy (VStr v) = true ->
  answersNext 2 w ->
  validId (autoId (replies w (calls w))) = true ->
  lookupDoc (autoId (replies w (calls w))) (events w) = None ->
  let w' := after (postAdminEvents (VStr t) date (VStr v)) w in
  let r := replies w (calls w) in
  let data := Event.Data (VStr (trim t)) date (VStr (trim v)) (serverTime r) in
  run (postAdminEvents (VStr t) date (VStr v)) w = Ok created
  /\ events w' = insertDoc (autoId r) data (events w)
  /\ registrations w' = registrations w /\ users w' = users w
  /\ Object (autoId r) data ∈ listedEvents (events w').
Proof.
  intros Ht Hd Hv Ha Hid Hfresh w' r data. subst w' r data.
  unfold run, after, postAdminEvents, trimOf. unfold_monad.
  rewrite Ht, Hd, Hv. cbn -[query].
  change "INSERT INTO events (title, date, venue) VALUES (?, ?, ?)" with insertEventSql.
  match goal with |- context [query insertEventSql ?p ?w0] =>
    destruct (createEvent_created (VStr (trim t)) date (VStr (trim v))
                (say Log "✅ INSERT INTO events matched!" (traced w0)))
      as (w1 & Hrun & Hev & Hreg & Hus & _)
  end; try done.
  { unfold storable, event_document. cbn. by rewrite (truthy_defined date Hd). }
  erewrite query_insertEventSql; [|exact Hrun].
  cbn. rewrite Hev, Hreg, Hus. cbn. repeat split.
  apply listedEvents_elem. cbn. split; [|by apply truthy_defined].
  apply insertDoc_elem. by left.
Qed.

Lemma postAdminEvents_creates_witness :
  run (postAdminEvents (VStr "   ") (VStr "2025-12-20") (VStr " Main Ground ")) fest
  = Ok created
  /\ events (after (postAdminEvents (VStr "   ") (VStr "2025-12-20")
                                    (VStr " Main Ground ")) fest)
     = insertDoc "g0" (Event.Data (VStr "") (VStr "2025-12-20") (VStr "Main Ground") 0)
                 (events fest).
Proof.
  destruct (postAdminEvents_creates "   " " Main Ground " (VStr "2025-12-20") fest)
    as (Hrun & Hev & _); try reflexivity.
  - intros k _. reflexivity.
  - split; [exact Hrun | exact Hev].
Defined.

(** X14. What [POST /admin/events] refuses.  With an empty field the handler
    answers that all fields are required, and no request goes to the
    store.  When the store fails the request, the answer carries the
    message of the error in its address: that of the store's error, or the
    text saying that the database is not enabled when the error is the
    not-found status.  A title that is not empty and is no string is
    answered with the message of the type error, and no request goes to
    the store.  In none of these cases a collection changes. *)
Theorem postAdminEvents_refuses (title date venue : value) (w : world) :
  let w' := after (postAdminEvents title date venue) w in
  (truthy title = false \/ truthy date = false \/ truthy venue = false ->
   run (postAdminEvents title date venue) w = Ok fieldsRequired
   /\ calls w' = calls w /\ sameStore w w')
  /\ (forall t v e,
        title = VStr t -> venue = VStr v ->
        truthy title = true -> truthy date = true -> truthy venue = true ->
        failsWith e w ->
        run (postAdminEvents title date venue) w
        = Ok (notCreated (if isNotFound e then notEnabled else e))
        /\ sameStore w w')
  /\ (truthy title = true -> truthy date = true -> truthy venue = true ->
      (forall t, title <> VStr t) ->
      run (postAdminEvents title date venue) w
      = Ok (notCreated (TypeError "title.trim is not a function"))
      /\ calls w' = calls w /\ sameStore w w').
Proof.
  intros w'. subst w'. unfold run, after. split; [|split].
  - intros Hempty. unfold postAdminEvents. unfold_monad.
    assert (Htest : negb (truthy title) || negb (truthy date) || negb (truthy venue) = true).
    { destruct Hempty as [-> | [-> | ->]]; cbn; rewrite ?orb_true_r; done. }
    rewrite Htest. cbn. done.
  - intros t v e -> -> Ht Hd Hv Hf. unfold postAdminEvents, trimOf. unfold_monad.
    rewrite Ht, Hd, Hv. cbn -[query].
    change "INSERT INTO events (title, date, venue) VALUES (?, ?, ?)" with insertEventSql.
    match goal with |- context [query insertEventSql ?p ?w0] =>
      destruct (createEvent_failed_store (VStr (trim t)) date (VStr (trim v))
                  (say Log "✅ INSERT INTO events matched!" (traced w0)) e)
        as (w1 & Hrun & Hsame)
    end; try done.
    { unfold storable, event_document. cbn. by rewrite (truthy_defined date Hd). }
    erewrite query_insertEventSql_raised; [|exact Hrun].
    cbn. split; [done|]. exact Hsame.
  - intros Ht Hd Hv Hno. unfold postAdminEvents, trimOf. unfold_monad.
    rewrite Ht, Hd, Hv. cbn -[query].
    destruct title as [| | |t]; [discriminate Ht | discriminate Ht | | by destruct (Hno t)].
    cbn -[query]. done.
Qed.

Lemma postAdminEvents_refuses_witness :
  run (postAdminEvents (VStr "Fest") (VStr "") (VStr "Ground")) fest = Ok fieldsRequired
  /\ run (postAdminEvents (VStr "Fest") (VStr "2025-12-20") (VStr "Ground"))
         (emptyWorld (failing (Exn (VNum 5) "5 NOT_FOUND")))
     = Ok (Redirect ("/admin/events?message=Failed to create event: "
                     +:+ "Firestore database not enabled. Please enable it in Firebase Console."
                     +:+ "&type=danger"))
  /\ run (postAdminEvents (VNum 7) (VStr "2025-12-20") (VStr "Ground")) fest
     = Ok (Redirect "/admin/events?message=Failed to create event: title.trim is not a function&type=danger").
Proof.
  split; [|split].
  - destruct (postAdminEvents_refuses (VStr "Fest") (VStr "") (VStr "Ground") fest)
      as [Hempty _].
    apply Hempty. right. by left.
  - destruct (postAdminEvents_refuses (VStr "Fest") (VStr "2025-12-20") (VStr "Ground")
                (emptyWorld (failing (Exn (VNum 5) "5 NOT_FOUND")))) as (_ & Hfailed & _).
    by destruct (Hfailed "Fest" "Ground" (Exn (VNum 5) "5 NOT_FOUND")) as [Hrun _].
  - destruct (postAdminEvents_refuses (VNum 7) (VStr "2025-12-20") (VStr "Ground") fest)
      as (_ & _ & Htype).
    destruct Htype as [Hrun _]; try done.
Defined.

(** ** [POST /admin/events/:id/delete] *)

Lemma deleteDoc_absent {D} i (l : list (string * D)) :
  lookupDoc i l = None -> deleteDoc i l = l.
Proof.
  unfold deleteDoc. induction l as [|[j d] l IH]; simpl; [done|].
  destruct (String.eqb i j); [done|]. intros Hl. simpl. by rewrite IH.
Qed.

Lemma postAdminEventsDelete_deleted id w :
  validId (toString id) = true -> answers w 0 ->
  exists w',
    postAdminEventsDelete id w = (Ok deleted, w')
    /\ events w' = deleteDoc (toString id) (events w)
    /\ registrations w' = registrations w /\ users w' = users w
    /\ replies w' = replies w /\ calls w' = S (calls w).
Proof.
  intros Hv Ha. unfold postAdminEventsDelete, deleteEvent, doc_delete, docRef.
  unfold_monad. simpl. rewrite Hv. rewrite (request_answered _ Ha). simpl.
  eexists. split; [reflexivity|]. done.
Qed.

(** X15. Deleting an event through [POST /admin/events/:id/delete].  The
    handler never touches the registrations or the users.  When the id is
    a valid document id and the store answers, the answer is the success
    redirect whether or not the event existed; afterwards no event is
    stored under the id, every other event is where it was, and a second
    delete of the same id succeeds again and changes nothing.  When the
    store fails the request, the answer is the failure redirect and the
    events stay as they are. *)
Theorem postAdminEventsDelete_answers (id : value) (w : world) :
  let key := toString id in
  let w' := after (postAdminEventsDelete id) w in
  registrations w' = registrations w /\ users w' = users w
  /\ (validId key = true -> answers w 0 ->
      run (postAdminEventsDelete id) w = Ok deleted
      /\ lookupDoc key (events w') = None
      /\ (forall j, j <> key -> lookupDoc j (events w') = lookupDoc j (events w))
      /\ (lookupDoc key (events w) = None -> events w' = events w)
      /\ (answers w' 0 ->
          run (postAdminEventsDelete id) w' = Ok deleted
          /\ events (after (postAdminEventsDelete id) w') = events w'))
  /\ (forall e, validId key = true -> failsWith e w ->
        run (postAdminEventsDelete id) w = Ok notDeleted /\ sameStore w w').
Proof.
  intros key w'. subst key w'. unfold run, after. split; [|split; [|split]].
  - unfold postAdminEventsDelete. unfold_monad.
    destruct (deleteEvent_frame id w) as (r & w1 & -> & _ & Hreg & _).
    by destruct r.
  - unfold postAdminEventsDelete. unfold_monad.
    destruct (deleteEvent_frame id w) as (r & w1 & -> & _ & _ & Hus).
    by destruct r.
  - intros Hv Ha.
    destruct (postAdminEventsDelete_deleted id w Hv Ha)
      as (w1 & -> & Hev & _ & _ & Hrep & Hcalls). cbn [fst snd].
    split; [done|]. rewrite Hev.
    split; [apply lookupDoc_deleteDoc_eq|].
    split; [intros j Hj; by apply lookupDoc_deleteDoc_ne|].
    split; [apply deleteDoc_absent|].
    intros Ha1.
    destruct (postAdminEventsDelete_deleted id w1 Hv Ha1) as (w2 & -> & Hev2 & _).
    cbn [fst snd]. split; [done|]. rewrite Hev2, Hev.
    apply deleteDoc_absent, lookupDoc_deleteDoc_eq.
  - intros e Hv Hf. unfold postAdminEventsDelete, deleteEvent, doc_delete, docRef.
    unfold_monad. simpl. rewrite Hv. rewrite (request_failed _ _ Hf). simpl. done.
Qed.

Lemma postAdminEventsDelete_answers_witness :
  run (postAdminEventsDelete (VStr "99")) fest = Ok deleted
  /\ events (after (postAdminEventsDelete (VStr "99")) fest) = events fest
  /\ run (postAdminEventsDelete (VStr "1"))
         (World (events fest) (registrations fest) [] (failing unavailable) 0 [])
     = Ok notDeleted.
Proof.
  split; [|split].
  - destruct (postAdminEventsDelete_answers (VStr "99") fest) as (_ & _ & Hdone & _).
    by destruct (Hdone eq_refl eq_refl) as [Hrun _].
  - destruct (postAdminEventsDelete_answers (VStr "99") fest) as (_ & _ & Hdone & _).
    destruct (Hdone eq_refl eq_refl) as (_ & _ & _ & Habsent & _). by apply Habsent.
  - destruct (postAdminEventsDelete_answers (VStr "1")
                (World (events fest) (registrations fest) [] (failing unavailable) 0 []))
      as (_ & _ & _ & Hfailed).
    by destruct (Hfailed unavailable eq_refl eq_refl) as [Hrun _].
Defined.


(** ** When the store fails a lookup *)


